(** * openephys-to-dh: event normalisation, trigger merge and block numbering

    A shallow embedding of [openephys_to_dh/events.py] and
    [openephys_to_dh/dh_from_oe_recording.py].

    - numpy integer arrays are [list Z]; narrowing to a w-bit dtype is written
      out ([wrap_signed]);
    - numpy float64 arrays are lists of [spec_float], the IEEE-754 binary64
      specification of the standard library (53-bit significand, [emax = 1024]),
      so that casts, products and differences round as the hardware does;
    - exceptions are the [Raise] outcome of a small error monad, warnings are
      collected next to the outcome;
    - Python dictionaries keyed by strings are [gmap string _]. *)

From Stdlib Require Import ZArith List Bool Lia.
From Stdlib Require Import Floats.SpecFloat.
From Stdlib Require Import Sorting.Permutation Sorting.Sorted.
From stdpp Require Import base option list strings gmap.

Local Open Scope Z_scope.

(** ** Outcomes *)

Inductive error : Type :=
  | LengthMismatch            (* assert in Event.__init__ / __len__ *)
  | EventsFolderMissing       (* assert os.path.exists(...) *)
  | NotAnEvent                (* assert isinstance(_, Event) *)
  | NotAFullWordEvent         (* assert isinstance(_, FullWordEvent) *)
  | TimestampsNotMonotonic    (* assert all(np.diff(timestamps_ns) >= 0) *)
  | IndexError                (* fancy indexing out of bounds *)
  | OverflowError             (* np.int32 of a Python int out of range *)
  | NoContinuousData          (* assert recording.continuous is not None *)
  | NoContinuousDataUnsupported (* ValueError: len(recording.continuous) == 0 *)
  | UnknownStreamName (name : string). (* ValueError: unknown stream name *)

Inductive result (A : Type) : Type :=
  | Ok (a : A)
  | Raise (e : error).
Arguments Ok {A} a.
Arguments Raise {A} e.

Definition rbind {A B} (r : result A) (k : A -> result B) : result B :=
  match r with
  | Ok a => k a
  | Raise e => Raise e
  end.

Notation "'let*' x ':=' r 'in' k" := (rbind r (fun x => k))
  (at level 10, x name, r at level 100, k at level 200).

(** ** numpy helpers *)

Module Np.

(** binary64 *)
Definition prec : Z := 53.
Definition emax : Z := 1024.

Definition nan : spec_float := S754_nan.

(** cast of an integer array element to float64 (round to nearest even) *)
Definition float64_of_int (z : Z) : spec_float :=
  binary_normalize prec emax z 0 false.

Definition sub (x y : spec_float) : spec_float := SFsub prec emax x y.
Definition mul (x y : spec_float) : spec_float := SFmul prec emax x y.
Definition div (x y : spec_float) : spec_float := SFdiv prec emax x y.

(** [x != 0] on float64: true for NaN *)
Definition ne_zero (x : spec_float) : bool :=
  negb (SFeqb x (S754_zero false)).

(** [a[1:] - a[:-1]] *)
Fixpoint adjacent {A B} (f : A -> A -> B) (a : list A) : list B :=
  match a with
  | x :: (y :: _) as tl => f x y :: adjacent f tl
  | _ => []
  end.

(** [np.diff(a, prepend=np.nan)] for an integer array [a]: the scalar NaN
    is concatenated in front, which promotes the whole array to float64 *)
Definition diff_prepend_nan (a : list Z) : list spec_float :=
  adjacent (fun x y => sub y x) (nan :: map float64_of_int a).

(** [np.where(mask)[0]] *)
Fixpoint where_from (i : nat) (mask : list bool) : list nat :=
  match mask with
  | [] => []
  | b :: tl => if b then i :: where_from (S i) tl else where_from (S i) tl
  end.
Definition where_ (mask : list bool) : list nat := where_from 0 mask.

(** [a[idx]] for an index array: out of bounds raises *)
Fixpoint take {A} (a : list A) (idx : list nat) : result (list A) :=
  match idx with
  | [] => Ok []
  | i :: tl =>
      match a !! i with
      | Some x => let* r := take a tl in Ok (x :: r)
      | None => Raise IndexError
      end
  end.

(** two's complement narrowing to a signed [w]-bit dtype *)
Definition wrap_signed (w : Z) (z : Z) : Z :=
  (z + 2 ^ (w - 1)) mod 2 ^ w - 2 ^ (w - 1).

Definition int64_min : Z := - 2 ^ 63.
Definition int64_max : Z := 2 ^ 63 - 1.
Definition int32_min : Z := - 2 ^ 31.
Definition int32_max : Z := 2 ^ 31 - 1.


(** no difference of two elements exceeds the largest int64 *)
Definition no_wrap (a : list Z) : Prop :=
  forall x y, x ∈ a -> y ∈ a -> y - x <= int64_max.

(** [np.diff] on an int64 array: the subtraction wraps *)
Definition diff_int64 (a : list Z) : list Z :=
  adjacent (fun x y => wrap_signed 64 (y - x)) a.

(** integer nearest to [m * 2^e], ties to even ([np.round] is [rint]) *)
Definition round_half_even (m e : Z) : Z :=
  if 0 <=? e then m * 2 ^ e
  else
    let d := 2 ^ (- e) in
    let q := m / d in
    let r := m mod d in
    if 2 * r <? d then q
    else if d <? 2 * r then q + 1
    else if Z.even q then q else q + 1.

(** the integer value of [np.round(x)], when [x] is finite *)
Definition round_to_int (x : spec_float) : option Z :=
  match x with
  | S754_zero _ => Some 0
  | S754_finite s m e => Some (cond_Zopp s (round_half_even (Zpos m) e))
  | S754_infinity _ | S754_nan => None
  end.

(** [np.int64(np.round(x))]: an integral value in range is kept; the C cast
    is undefined for NaN, infinities and values that do not fit, where
    x86-64 produces the most negative integer *)
Definition int64_of_round (x : spec_float) : Z :=
  match round_to_int x with
  | Some z => if (int64_min <=? z) && (z <=? int64_max) then z else int64_min
  | None => int64_min
  end.

(** [np.int64(np.round(timestamps * 1e9))] *)
Definition seconds_to_ns (t : spec_float) : Z :=
  int64_of_round (mul t (float64_of_int 1000000000)).

(** [np.int32(n)] for a Python integer [n] *)
Definition int32_of_pyint (n : Z) : result Z :=
  if (int32_min <=? n) && (n <=? int32_max) then Ok n else Raise OverflowError.

(** what [np.argsort] promises of its result: a permutation of the
    positions that puts the array in non-decreasing order (the default
    kind is not stable, so ties may come in any order) *)
Definition is_argsort (a : list Z) (idx : list nat) : Prop :=
  Permutation idx (seq 0 (length a))
  /\ exists r, take a idx = Ok r /\ StronglySorted Z.le r.

(** one such permutation, by insertion on (value, position) pairs *)
Fixpoint insert_pair (p : Z * nat) (l : list (Z * nat)) : list (Z * nat) :=
  match l with
  | [] => [p]
  | q :: tl => if fst p <=? fst q then p :: l else q :: insert_pair p tl
  end.

Definition key_le (p q : Z * nat) : Prop := fst p <= fst q.


Definition sort_pairs (l : list (Z * nat)) : list (Z * nat) :=
  foldr insert_pair [] l.

Definition argsort (a : list Z) : list nat :=
  map snd (sort_pairs (zip a (seq 0 (length a)))).

End Np.

(** ** [events.py] *)

Module Events.

Record EventMetadata : Type := {
  channel_name : string;
  folder_name : string;
  identifier : string;
  sample_rate : spec_float;
  stream_name : string;
  type_ : string;
  description : string;
  source_processor : string;
  initial_state : Z
}.

Record Messages : Type := {
  msg_metadata : EventMetadata;
  msg_text : list string;
  msg_sample_numbers : list Z;
  msg_timestamps : list spec_float
}.

Record Event : Type := {
  metadata : EventMetadata;
  full_words : list Z;
  timestamps : list spec_float;
  states : list Z;
  sample_numbers : list Z
}.

Record FullWordEvent : Type := {
  fw_metadata : EventMetadata;
  fw_full_words : list Z;
  fw_timestamps : list spec_float;
  fw_sample_numbers : list Z
}.

(** [len(a) == len(b) == len(c) == len(d)] *)
Definition same_length4 {A B C D} (a : list A) (b : list B) (c : list C)
    (d : list D) : bool :=
  (length a =? length b)%nat && (length b =? length c)%nat
    && (length c =? length d)%nat.

Definition same_length3 {A B C} (a : list A) (b : list B) (c : list C) : bool :=
  (length a =? length b)%nat && (length b =? length c)%nat.

(** [Event.__init__]: the hand-written constructor asserts the lengths *)
Definition Event_init (md : EventMetadata) (fw : list Z) (ts : list spec_float)
    (st : list Z) (sn : list Z) : result Event :=
  if same_length4 fw ts st sn
  then Ok {| metadata := md; full_words := fw; timestamps := ts;
             states := st; sample_numbers := sn |}
  else Raise LengthMismatch.

(** [Event.__len__] *)
Definition Event_len (e : Event) : result nat :=
  if same_length4 (full_words e) (timestamps e) (states e) (sample_numbers e)
  then Ok (length (full_words e))
  else Raise LengthMismatch.

(** [FullWordEvent(...)]: the constructor the [@dataclass] decorator
    generates only stores its arguments *)
Definition FullWordEvent_init (md : EventMetadata) (fw : list Z)
    (ts : list spec_float) (sn : list Z) : result FullWordEvent :=
  Ok {| fw_metadata := md; fw_full_words := fw; fw_timestamps := ts;
        fw_sample_numbers := sn |}.

(** [FullWordEvent.__len__] *)
Definition FullWordEvent_len (e : FullWordEvent) : result nat :=
  if same_length3 (fw_full_words e) (fw_timestamps e) (fw_sample_numbers e)
  then Ok (length (fw_full_words e))
  else Raise LengthMismatch.

(** [Messages(...)], a plain dataclass as well *)
Definition Messages_init (md : EventMetadata) (tx : list string)
    (sn : list Z) (ts : list spec_float) : result Messages :=
  Ok {| msg_metadata := md; msg_text := tx; msg_sample_numbers := sn;
        msg_timestamps := ts |}.

(** indices kept by [remove_repeating_simultaneous_words] *)
Definition unique_indices (words : list Z) : list nat :=
  Np.where_ (map Np.ne_zero (Np.diff_prepend_nan words)).

(** The samples that the docstring asks for ("only changing words"): the
    first one, and every one whose word differs from the word before. *)
Fixpoint changed_from (previous : option Z) (words : list Z) : list bool :=
  match words with
  | [] => []
  | w :: rest =>
      match previous with
      | None => true
      | Some p => negb (w =? p)
      end :: changed_from (Some w) rest
  end.

Definition changed_indices (words : list Z) : list nat :=
  Np.where_ (changed_from None words).

Definition remove_repeating_simultaneous_words (event : Event)
    : result FullWordEvent :=
  let idx := unique_indices (full_words event) in
  let* fw := Np.take (full_words event) idx in
  let* ts := Np.take (timestamps event) idx in
  let* sn := Np.take (sample_numbers event) idx in
  FullWordEvent_init (metadata event) fw ts sn.

(** the [.npy] files of one event folder *)
Record EventFolder : Type := {
  full_words_npy : list Z;
  timestamps_npy : list spec_float;
  states_npy : list Z;
  sample_numbers_npy : list Z;
  text_npy : list string
}.

(** [<recording_directory>/events/], by folder name *)
Abbreviation EventsDir := (gmap string EventFolder).

Definition Event_from_folder (f : EventFolder) (md : EventMetadata)
    : result Event :=
  Event_init md (full_words_npy f) (timestamps_npy f) (states_npy f)
    (sample_numbers_npy f).

Definition Messages_from_folder (f : EventFolder) (md : EventMetadata)
    : result Messages :=
  Messages_init md (text_npy f) (sample_numbers_npy f) (timestamps_npy f).

Inductive loaded : Type :=
  | IsEvent (e : Event)
  | IsMessages (m : Messages)
  | IsFullWordEvent (f : FullWordEvent).

Inductive warning : Type :=
  | UnsupportedSourceProcessor (name : string).

(** [event_from_eventfolder]: the outcome and the warnings issued *)
Definition event_from_eventfolder (dir : EventsDir) (md : EventMetadata)
    : result loaded * list warning :=
  match dir !! folder_name md with
  | None => (Raise EventsFolderMissing, [])
  | Some f =>
      if String.eqb (source_processor md) "Network Events" then
        (let* e := Event_from_folder f md in
         let* w := remove_repeating_simultaneous_words e in
         Ok (IsFullWordEvent w), [])
      else if String.eqb (source_processor md) "Message Center" then
        (let* m := Messages_from_folder f md in Ok (IsMessages m), [])
      else if String.eqb (source_processor md) "NI-DAQmx" then
        (let* e := Event_from_folder f md in Ok (IsEvent e), [])
      else
        (let* e := Event_from_folder f md in Ok (IsEvent e),
         [UnsupportedSourceProcessor (source_processor md)])
  end.

Definition is_ev02 (event : EventMetadata) : bool :=
  String.eqb (source_processor event) "NI-DAQmx"
    && String.eqb (stream_name event) "PXIe-6341".

Definition is_marker (event : EventMetadata) : bool :=
  String.eqb (source_processor event) "Network Events".

(** [find_ev02_source]: [oeinfo["events"]] is the list of declared sources *)
Fixpoint find_ev02_source (events : list EventMetadata) : option EventMetadata :=
  match events with
  | [] => None
  | event :: rest => if is_ev02 event then Some event else find_ev02_source rest
  end.

Fixpoint find_marker_source (events : list EventMetadata) : option EventMetadata :=
  match events with
  | [] => None
  | event :: rest => if is_marker event then Some event else find_marker_source rest
  end.


(** the fields of [EventPreprocessingConfig] that [process_oe_events]
    reads; the name maps are dictionaries, kept in iteration order *)
Record EventPreprocessingConfig : Type := {
  network_events_offset : Z;
  ttl_line_names : option (list (string * Z));
  network_events_code_name_map : option (list (string * Z))
}.

(** the [EV02] dataset: the trigger table and its attributes *)
Record EV02 : Type := {
  ev_timestamps_ns : list Z;
  ev_event_codes : list Z;
  ev_attrs : gmap string Z
}.

(** [for event_name, event_code in names.items():
       attrs[str(event_name)] = np.int32(event_code + offset)] *)
Fixpoint write_names (offset : Z) (names : list (string * Z))
    (attrs : gmap string Z) : result (gmap string Z) :=
  match names with
  | [] => Ok attrs
  | (event_name, event_code) :: rest =>
      let* v := Np.int32_of_pyint (event_code + offset) in
      write_names offset rest (<[event_name := v]> attrs)
  end.

Definition write_names_opt (offset : Z) (names : option (list (string * Z)))
    (attrs : gmap string Z) : result (gmap string Z) :=
  match names with
  | None => Ok attrs
  | Some l => write_names offset l attrs
  end.

(** outcome together with the warnings issued so far *)
Definition M (A : Type) : Type := result A * list warning.

Definition mbind {A B} (m : M A) (k : A -> M B) : M B :=
  match m with
  | (Ok a, w) => let '(r, w') := k a in (r, w ++ w')
  | (Raise e, w) => (Raise e, w)
  end.

Definition lift {A} (r : result A) : M A := (r, []).

Notation "'let!' x ':=' m 'in' k" := (mbind m (fun x => k))
  (at level 10, x name, m at level 100, k at level 200).

(** contribution of the hardware trigger source: [(timestamps_ns, event_codes)] *)
Definition ev02_part (dir : EventsDir) (events : list EventMetadata)
    : M (list Z * list Z) :=
  match find_ev02_source events with
  | None => lift (Ok ([], []))
  | Some md =>
      let! l := event_from_eventfolder dir md in
      match l with
      | IsEvent e => lift (Ok (map Np.seconds_to_ns (timestamps e), states e))
      | _ => lift (Raise NotAnEvent)
      end
  end.

(** appending the marker source, if there is one *)
Definition marker_part (dir : EventsDir) (events : list EventMetadata)
    (offset : Z) (acc : list Z * list Z) : M (list Z * list Z) :=
  match find_marker_source events with
  | None => lift (Ok acc)
  | Some md =>
      let! l := event_from_eventfolder dir md in
      match l with
      | IsFullWordEvent w =>
          lift (Ok (map (Np.wrap_signed 64)
                      (fst acc ++ map Np.seconds_to_ns (fw_timestamps w)),
                    map (Np.wrap_signed 32)
                      (snd acc ++ map (fun x => x + offset) (fw_full_words w))))
      | _ => lift (Raise NotAFullWordEvent)
      end
  end.

(** no timestamp of the recording is negative once converted to nanoseconds *)
Definition nonneg_timestamps (dir : gmap string EventFolder) : Prop :=
  forall name f, dir !! name = Some f ->
    Forall (fun t => 0 <= Np.seconds_to_ns t) (timestamps_npy f).

(** no two timestamps of the recording are 2^63 ns or more apart *)
Definition narrow_span (dir : gmap string EventFolder) : Prop :=
  forall name1 f1 name2 f2 t u,
    dir !! name1 = Some f1 -> dir !! name2 = Some f2 ->
    t ∈ timestamps_npy f1 -> u ∈ timestamps_npy f2 ->
    Np.seconds_to_ns u - Np.seconds_to_ns t <= Np.int64_max.

(** [x] is the conversion of a timestamp of the recording *)
Definition from_recording (dir : gmap string EventFolder) (x : Z) : Prop :=
  exists name f t,
    dir !! name = Some f /\ t ∈ timestamps_npy f /\ x = Np.seconds_to_ns t.

(** sorting by timestamp and the assertion that follows *)
Definition sort_and_check (argsort : list Z -> list nat)
    (tc : list Z * list Z) : result (list Z * list Z) :=
  let sort_indices := argsort (fst tc) in
  let* timestamps_ns := Np.take (fst tc) sort_indices in
  let* event_codes := Np.take (snd tc) sort_indices in
  if forallb (fun d => 0 <=? d) (Np.diff_int64 timestamps_ns)
  then Ok (timestamps_ns, event_codes)
  else Raise TimestampsNotMonotonic.

(** [process_oe_events]; [argsort] stands for [np.argsort] *)
Definition process_oe_events (argsort : list Z -> list nat)
    (event_config : EventPreprocessingConfig)
    (events : list EventMetadata) (dir : EventsDir) : M EV02 :=
  let! p := ev02_part dir events in
  let offset := network_events_offset event_config in
  let! tc := marker_part dir events offset p in
  let! sorted := lift (sort_and_check argsort tc) in
  let! attrs1 := lift (write_names_opt offset (ttl_line_names event_config) ∅) in
  let! attrs2 :=
    lift (match find_marker_source events with
          | Some _ =>
              write_names_opt offset
                (network_events_code_name_map event_config) attrs1
          | None => Ok attrs1
          end) in
  lift (Ok {| ev_timestamps_ns := fst sorted; ev_event_codes := snd sorted;
              ev_attrs := attrs2 |}).

End Events.

(** ** [dh_from_oe_recording.py] *)

Module DhFromOe.

Inductive ContGroups : Type := RAW | ANALOG | LFP | ESA | AP.

(** the values of the [IntEnum] *)
Definition ContGroups_value (g : ContGroups) : Z :=
  match g with
  | RAW => 1
  | ANALOG => 1601
  | LFP => 2001
  | ESA => 4001
  | AP => 6001
  end.

(** including endpoints for each group *)
Definition CONT_GROUP_RANGES (g : ContGroups) : Z * Z :=
  match g with
  | RAW => (1, 1600)
  | ANALOG => (1601, 2000)
  | LFP => (2001, 4000)
  | ESA => (4001, 6000)
  | AP => (6001, 8000)
  end.

Definition OE_PROCESSOR_CONT_GROUP_MAP : gmap string ContGroups :=
  <["PXIe-6341" := RAW]>
    (<["PCIe-6341" := RAW]>
       (<["example_data" := RAW]>
          (<["Neuropix-PXI" := RAW]> ∅))).

Record ContinuousMetadata : Type := {
  source_node_name : string;
  source_node_id : Z;
  stream_name : string;
  sample_rate : spec_float;
  channel_names : list string;
  bit_volts : list spec_float
}.

(** a continuous stream; [samples] has shape [(nSamples, nChannels)] and
    is kept by columns *)
Record Continuous : Type := {
  metadata : ContinuousMetadata;
  nSamples : nat;
  samples : list (list Z)
}.

Definition nChannels (cont : Continuous) : nat := length (samples cont).

Record BinaryRecording : Type := {
  continuous : option (list Continuous)
}.

Record ChannelInfo : Type := {
  GlobalChanNumber : Z;
  BoardChanNo : Z;
  ADCBitWidth : Z;
  MaxVoltageRange : Z;
  MinVoltageRange : Z;
  AmplifChan0 : Z
}.

Definition create_channel_info (g b : Z) : ChannelInfo :=
  {| GlobalChanNumber := g; BoardChanNo := b; ADCBitWidth := 16;
     MaxVoltageRange := 10; MinVoltageRange := 10; AmplifChan0 := 0 |}.

(** one CONT block as handed to the archive writer; the sample period and
    the calibration are read off the stream's metadata, which is kept *)
Record ContBlock : Type := {
  cont_group_id : Z;
  data : list (list Z);
  name : string;
  channels : ChannelInfo;
  block_metadata : ContinuousMetadata
}.

Record DH5File : Type := {
  filename : string * Z;          (* f"{session_name}_{recording_index}.dh5" *)
  boards : list (string * Z);     (* f"{source_node_name}:{source_node_id}" *)
  cont_blocks : list ContBlock    (* in the order written *)
}.

Definition add_cont_block (f : DH5File) (b : ContBlock) : DH5File :=
  {| filename := filename f; boards := boards f;
     cont_blocks := cont_blocks f ++ [b] |}.

(** [samples[:, i : i + 1]] *)
Definition column_slice (cols : list (list Z)) (i : nat) : list (list Z) :=
  firstn 1 (skipn i cols).

(** the loop of [create_cont_group_per_channel], from channel [channel_index] on *)
Fixpoint per_channel_loop (oe_continuous : Continuous) (md : ContinuousMetadata)
    (start_cont_id : Z) (global_channel_index : Z) (channel_index : nat)
    (names : list string) (dh5file : DH5File) : DH5File :=
  match names with
  | [] => dh5file
  | nm :: rest =>
      let dh5_cont_id := start_cont_id + Z.of_nat channel_index in
      let channel_info :=
        create_channel_info global_channel_index (Z.of_nat channel_index) in
      let block :=
        {| cont_group_id := dh5_cont_id;
           data := column_slice (samples oe_continuous) channel_index;
           name := nm;
           channels := channel_info;
           block_metadata := md |} in
      per_channel_loop oe_continuous md start_cont_id
        (global_channel_index + 1) (S channel_index) rest
        (add_cont_block dh5file block)
  end.

Definition create_cont_group_per_channel (oe_continuous : Continuous)
    (dh5file : DH5File) (md : ContinuousMetadata) (start_cont_id : Z)
    (first_global_channel_index : Z) : DH5File :=
  per_channel_loop oe_continuous md start_cont_id first_global_channel_index
    0 (channel_names md) dh5file.

Definition create_cont_group_per_continuous_stream (oe_continuous : Continuous)
    (dh5file : DH5File) (md : ContinuousMetadata) (start_cont_id : Z)
    (last_global_channel_index : Z) : DH5File :=
  add_cont_block dh5file
    {| cont_group_id := start_cont_id;
       data := samples oe_continuous;
       name := source_node_name md;
       channels := create_channel_info last_global_channel_index 0;
       block_metadata := md |}.

(** the state of a run: the archive as far as it was written, and the
    exception that ended the run, if any *)
Record run : Type := {
  file : option DH5File;
  raised : option error
}.

(** the [for cont in recording.continuous] loop *)
Fixpoint stream_loop (split_channels_into_cont_blocks : bool)
    (conts : list Continuous) (global_channel_index : Z) (dh5file : DH5File)
    : run :=
  match conts with
  | [] => {| file := Some dh5file; raised := None |}
  | cont :: rest =>
      let md := metadata cont in
      match OE_PROCESSOR_CONT_GROUP_MAP !! stream_name md with
      | None =>
          {| file := Some dh5file;
             raised := Some (UnknownStreamName (stream_name md)) |}
      | Some cont_group =>
          let group_range_start_index := fst (CONT_GROUP_RANGES cont_group) in
          let start_cont_id := global_channel_index + group_range_start_index in
          if split_channels_into_cont_blocks then
            stream_loop split_channels_into_cont_blocks rest
              (global_channel_index + Z.of_nat (nChannels cont))
              (create_cont_group_per_channel cont dh5file md start_cont_id
                 global_channel_index)
          else
            stream_loop split_channels_into_cont_blocks rest
              global_channel_index
              (create_cont_group_per_continuous_stream cont dh5file md
                 start_cont_id 0)
      end
  end.

Definition dh_from_oe_recording (recording : BinaryRecording)
    (session_name : string) (recording_index : Z)
    (split_channels_into_cont_blocks : bool) : run :=
  match continuous recording with
  | None => {| file := None; raised := Some NoContinuousData |}
  | Some [] => {| file := None; raised := Some NoContinuousDataUnsupported |}
  | Some conts =>
      let board_names :=
        map (fun cont => (source_node_name (metadata cont),
                          source_node_id (metadata cont))) conts in
      let dh5file :=
        {| filename := (session_name, recording_index);
           boards := board_names; cont_blocks := [] |} in
      stream_loop split_channels_into_cont_blocks conts 0 dh5file
  end.

(** the identifiers of the blocks a run has written, in order *)
Definition written_blocks (r : run) : list ContBlock :=
  match file r with
  | Some f => cont_blocks f
  | None => []
  end.

Definition written_ids (r : run) : list Z :=
  map cont_group_id (written_blocks r).

(** The numbering as the specification words it: the block of a channel
    is [start(category) + ordinal], the ordinal counting the channels of
    the same category that come before it. [seen g] is the number of
    channels of category [g] so far; a stream of unknown category ends the
    run. *)
Definition ContGroups_eqb (g h : ContGroups) : bool :=
  ContGroups_value g =? ContGroups_value h.

Definition category_of (cont : Continuous) : option ContGroups :=
  OE_PROCESSOR_CONT_GROUP_MAP !! stream_name (metadata cont).

Fixpoint specified_ids_from (seen : ContGroups -> Z) (conts : list Continuous)
    : list Z :=
  match conts with
  | [] => []
  | cont :: rest =>
      match category_of cont with
      | None => []
      | Some g =>
          let n := length (channel_names (metadata cont)) in
          map (fun i => fst (CONT_GROUP_RANGES g) + (seen g + Z.of_nat i))
              (seq 0 n)
          ++ specified_ids_from
               (fun h => if ContGroups_eqb g h then seen h + Z.of_nat n
                         else seen h)
               rest
      end
  end.

Definition specified_ids (conts : list Continuous) : list Z :=
  specified_ids_from (fun _ => 0) conts.

(** the sample array has one column for each channel name *)
Definition well_shaped (cont : Continuous) : Prop :=
  nChannels cont = length (channel_names (metadata cont)).

(** the streams up to the first one whose name is not in the map *)
Fixpoint known_prefix (conts : list Continuous) : list Continuous :=
  match conts with
  | [] => []
  | cont :: rest =>
      match category_of cont with
      | None => []
      | Some _ => cont :: known_prefix rest
      end
  end.

Fixpoint total_channels (conts : list Continuous) : nat :=
  match conts with
  | [] => O
  | cont :: rest =>
      (length (channel_names (metadata cont)) + total_channels rest)%nat
  end.

End DhFromOe.

(** ** Decimation (the [oecon.decimation] interface exercised by the tests) *)

Module Decimation.

Inductive filter_type : Type := fir | iir.

Section Decimate.

Context {A : Type}.

(** The anti-aliasing low-pass filter ([filter type], [order], [zero
    phase], [factor], one channel's samples): it is not at hand, and is a
    parameter here. *)
Variable lowpass : filter_type -> nat -> bool -> nat -> list A -> list A.

(** Modelled from the spec: the decimation proper, which is part of
    [oecon.decimation] (only the tests of that module are at hand). "then
    retains every factor-th sample", with "output length
    floor(input_length / factor)": one sample is kept from each complete
    group of [factor] consecutive samples, and an incomplete group at the
    end gives none. [fuel] bounds the number of groups. *)
Fixpoint retain_every (fuel factor : nat) (x : list A) : list A :=
  match fuel with
  | O => []
  | S fuel' =>
      if (factor <=? length x)%nat then
        match x with
        | [] => []
        | s :: _ => s :: retain_every fuel' factor (skipn factor x)
        end
      else []
  end.

(** Modelled from the spec: [decimate_np_array] of [oecon.decimation] on
    one channel, "applies a digital low-pass anti-aliasing filter [...],
    then retains every factor-th sample". *)
Definition decimate_1d (x : list A) (downsampling_factor filter_order : nat)
    (ftype : filter_type) (zero_phase : bool) : list A :=
  let y := lowpass ftype filter_order zero_phase downsampling_factor x in
  retain_every (length y) downsampling_factor y.

(** Modelled from the spec: [decimate_np_array] of [oecon.decimation] on a
    (samples x channels) array, kept by columns here: it "operates
    independently per channel [...], filtering along the sample axis
    only". *)
Definition decimate_np_array (data : list (list A))
    (downsampling_factor filter_order : nat) (ftype : filter_type)
    (zero_phase : bool) : list (list A) :=
  map (fun column =>
         decimate_1d column downsampling_factor filter_order ftype zero_phase)
      data.

End Decimate.

End Decimation.

(** ** Recordings used in the examples *)

Module Fixtures.

Import Events.

(** the float64 nearest to the decimal fraction [n / d] *)
Definition decimal (n d : Z) : spec_float :=
  Np.div (Np.float64_of_int n) (Np.float64_of_int d).

Definition source (processor stream folder : string) : EventMetadata :=
  {| channel_name := "TTL"; folder_name := folder; identifier := "id";
     sample_rate := Np.float64_of_int 30000; stream_name := stream;
     type_ := "int16"; description := "events";
     source_processor := processor; initial_state := 0 |}.

Definition ni_daq : EventMetadata :=
  source "NI-DAQmx" "PXIe-6341" "NI-DAQmx-100.PXIe-6341/TTL".
Definition ni_daq_later : EventMetadata :=
  source "NI-DAQmx" "PXIe-6341" "NI-DAQmx-101.PXIe-6341/TTL".
Definition network_events : EventMetadata :=
  source "Network Events" "PXIe-6341" "Network_Events-102.PXIe-6341/TTL".

Definition folder (words : list Z) (ts : list spec_float) (st sn : list Z)
    : EventFolder :=
  {| full_words_npy := words; timestamps_npy := ts; states_npy := st;
     sample_numbers_npy := sn; text_npy := [] |}.

(** primary timestamps [0.002, 0.001] s with codes [3, 4]; marker timestamp
    [0.0015] s with word [1]; offset [100] *)
Definition scenario_dir : gmap string EventFolder :=
  <[folder_name ni_daq :=
      folder [0; 0] [decimal 2 1000; decimal 1 1000] [3; 4] [60; 30]]>
    (<[folder_name network_events :=
         folder [1] [decimal 15 10000] [1] [45]]> ∅).

Definition scenario_config : EventPreprocessingConfig :=
  {| network_events_offset := 100; ttl_line_names := None;
     network_events_code_name_map := None |}.

(** two hardware triggers 5e9 s before and after the start of the recording *)
Definition wide_dir : gmap string EventFolder :=
  <[folder_name ni_daq :=
      folder [0; 0]
        [Np.float64_of_int (-5000000000); Np.float64_of_int 5000000000]
        [1; 2] [0; 1]]> ∅.

(** one trigger on line 3, named "reward" in [ttl_line_names] *)
Definition named_dir : gmap string EventFolder :=
  <[folder_name ni_daq := folder [4] [decimal 1 1000] [3] [30]]> ∅.

Definition named_config : EventPreprocessingConfig :=
  {| network_events_offset := 100;
     ttl_line_names := Some [("reward"%string, 3)];
     network_events_code_name_map := None |}.

(** two words that differ in their lowest bit, bit 53 set *)
Definition high_words : Event :=
  {| metadata := network_events;
     full_words := [9007199254740992; 9007199254740993];
     timestamps := [decimal 1 1000; decimal 2 1000];
     states := [54; 1];
     sample_numbers := [30; 60] |}.

(** a stream of [n] channels of one sample each *)
Definition stream (nm : string) (n : nat) : DhFromOe.Continuous :=
  {| DhFromOe.metadata :=
       {| DhFromOe.source_node_name := "Acquisition Board";
          DhFromOe.source_node_id := 100;
          DhFromOe.stream_name := nm;
          DhFromOe.sample_rate := Np.float64_of_int 30000;
          DhFromOe.channel_names := replicate n "CH"%string;
          DhFromOe.bit_volts := replicate n (decimal 195 1000) |};
     DhFromOe.nSamples := 1;
     DhFromOe.samples := replicate n [0] |}.

Definition recording_of (conts : list DhFromOe.Continuous)
    : DhFromOe.BinaryRecording :=
  {| DhFromOe.continuous := Some conts |}.

(** two streams of one channel each *)
Definition two_streams : list DhFromOe.Continuous :=
  [stream "PXIe-6341" 1; stream "Neuropix-PXI" 1].


End Fixtures.

(** ** What the sources contribute to the trigger stream *)

Module Merge.

Import Events.





(** the words left when every word equal to the one before it is dropped *)
Fixpoint drop_repeats (previous : option Z) (words : list Z) : list Z :=
  match words with
  | [] => []
  | w :: rest =>
      match previous with
      | None => w :: drop_repeats (Some w) rest
      | Some p =>
          if w =? p then drop_repeats (Some w) rest
          else w :: drop_repeats (Some w) rest
      end
  end.

(** the name maps as dictionaries *)
Definition names_of (names : option (list (string * Z))) : gmap string Z :=
  match names with
  | None => ∅
  | Some l => list_to_map l
  end.

Definition unique_names (names : option (list (string * Z))) : Prop :=
  match names with
  | None => True
  | Some l => NoDup (map fst l)
  end.

(** the configuration without the names of the network events *)
Definition without_network_names (cfg : EventPreprocessingConfig)
    : EventPreprocessingConfig :=
  {| network_events_offset := network_events_offset cfg;
     ttl_line_names := ttl_line_names cfg;
     network_events_code_name_map := None |}.

End Merge.

(** ** The source that takes each role *)

Module Roles.

Import Events.




End Roles.

(** ** The blocks of a conversion, stream by stream *)

Module Blocks.

Import DhFromOe.


(** the blocks of the channels of one stream, [g] channels having been
    numbered before *)
Definition stream_blocks (cont : Continuous) (g : Z) : list ContBlock :=
  imap (fun i nm =>
          {| cont_group_id := g + 1 + Z.of_nat i;
             data := column_slice (samples cont) i;
             name := nm;
             channels := create_channel_info (g + Z.of_nat i) (Z.of_nat i);
             block_metadata := metadata cont |})
       (channel_names (metadata cont)).




End Blocks.

(** ** The stand-ins of [tests/test_decimation.py] *)

Module TestDecimation.

Import DhFromOe.

(** [names.index(x)]: the first position of [x]; [None] stands for the
    [ValueError] raised when there is none *)
Fixpoint index (x : string) (names : list string) : option nat :=
  match names with
  | [] => None
  | y :: rest => if String.eqb y x then Some O else S <$> index x rest
  end.

(** [MockContinuous.get_samples]: an empty list and [None] count as false
    in the condition; only the first selected name is looked at *)
Definition get_samples (self : Continuous)
    (start_sample_index end_sample_index : Z)
    (selected_channels : option (list Z))
    (selected_channel_names : option (list string))
    : option (list (list Z)) :=
  match selected_channel_names, channel_names (metadata self) with
  | Some (nm :: _), _ :: _ =>
      match index nm (channel_names (metadata self)) with
      | Some channel_idx => Some (column_slice (samples self) channel_idx)
      | None => None
      end
  | _, _ => Some (samples self)
  end.

End TestDecimation.

(** * Properties *)

(** ** Arrays *)

Section NpFacts.

Lemma rbind_ok {A B} (r : result A) (k : A -> result B) b :
  rbind r k = Ok b -> exists a, r = Ok a /\ k a = Ok b.
Proof. destruct r as [a|e]; simpl; [eauto | discriminate]. Qed.

Lemma take_ok_inv {A} (a : list A) i tl r :
  Np.take a (i :: tl) = Ok r ->
  exists x r', a !! i = Some x /\ Np.take a tl = Ok r' /\ r = x :: r'.
Proof.
  simpl. destruct (a !! i) as [x|]; [|discriminate].
  intros H. apply rbind_ok in H as (r' & Hr' & Hk).
  exists x, r'. by inversion Hk.
Qed.

Lemma take_length {A} (a : list A) idx r :
  Np.take a idx = Ok r -> length r = length idx.
Proof.
  revert r. induction idx as [|i tl IH]; intros r H.
  - by inversion H.
  - apply take_ok_inv in H as (x & r' & _ & Hr' & ->). simpl. by rewrite (IH r').
Qed.

Lemma take_elem_of {A} (a : list A) idx r :
  Np.take a idx = Ok r -> Forall (fun x => x ∈ a) r.
Proof.
  revert r. induction idx as [|i tl IH]; intros r H.
  - inversion H. constructor.
  - apply take_ok_inv in H as (x & r' & Hx & Hr' & ->).
    constructor; [by eapply list_elem_of_lookup_2 | by apply IH].
Qed.

Lemma take_in_range {A} (a : list A) idx :
  Forall (fun i => (i < length a)%nat) idx -> exists r, Np.take a idx = Ok r.
Proof.
  induction 1 as [|i tl Hi _ [r Hr]]; [by exists []|].
  apply lookup_lt_is_Some_2 in Hi as [x Hx].
  exists (x :: r). simpl. by rewrite Hx, Hr.
Qed.

Lemma take_lookup {A} (a : list A) idx r k i :
  Np.take a idx = Ok r -> idx !! k = Some i -> r !! k = a !! i.
Proof.
  revert r k. induction idx as [|j tl IH]; intros r k H Hk; [done|].
  apply take_ok_inv in H as (x & r' & Hx & Hr' & ->).
  destruct k as [|k]; simpl in *.
  - by inversion Hk; subst.
  - by apply IH.
Qed.

(** the pairs of two arrays gathered with one index array are the gathered
    pairs *)
Lemma take_zip {A B} (a : list A) (b : list B) idx ra rb :
  Np.take a idx = Ok ra -> Np.take b idx = Ok rb ->
  Np.take (zip a b) idx = Ok (zip ra rb).
Proof.
  revert ra rb. induction idx as [|i tl IH]; intros ra rb Ha Hb.
  - by inversion Ha; inversion Hb.
  - apply take_ok_inv in Ha as (x & ra' & Hx & Hra & ->).
    apply take_ok_inv in Hb as (y & rb' & Hy & Hrb & ->).
    simpl. rewrite (IH _ _ Hra Hrb).
    assert (zip a b !! i = Some (x, y)) as ->; [|done].
    rewrite lookup_zip_with, Hx. simpl. by rewrite Hy.
Qed.




End NpFacts.

(** ** Sorting *)

Section ArgsortFacts.

Lemma insert_pair_perm p l : Permutation (Np.insert_pair p l) (p :: l).
Proof.
  induction l as [|q tl IH]; simpl; [done|].
  destruct (fst p <=? fst q); [done|].
  rewrite IH. apply perm_swap.
Qed.

Lemma sort_pairs_perm l : Permutation (Np.sort_pairs l) l.
Proof.
  induction l as [|p tl IH]; simpl; [done|].
  rewrite insert_pair_perm. by constructor.
Qed.

Lemma insert_pair_sorted p l :
  StronglySorted Np.key_le l -> StronglySorted Np.key_le (Np.insert_pair p l).
Proof.
  induction 1 as [|q tl Hs IH Hq]; simpl.
  - repeat constructor.
  - destruct (Z.leb_spec (fst p) (fst q)) as [Hle|Hgt].
    + constructor; [by constructor|].
      constructor; [done|].
      eapply Forall_impl; [exact Hq|]. unfold Np.key_le. intros; lia.
    + constructor; [done|].
      rewrite insert_pair_perm. constructor; [unfold Np.key_le; lia | done].
Qed.

Lemma sort_pairs_sorted l : StronglySorted Np.key_le (Np.sort_pairs l).
Proof.
  induction l as [|p tl IH]; simpl; [constructor|].
  by apply insert_pair_sorted.
Qed.

Lemma sorted_fst l :
  StronglySorted Np.key_le l -> StronglySorted Z.le (map fst l).
Proof.
  induction 1 as [|q tl Hs IH Hq]; simpl; constructor; [done|].
  by apply Forall_fmap.
Qed.

Lemma take_pairs (a : list Z) (l : list (Z * nat)) :
  Forall (fun p => a !! snd p = Some (fst p)) l ->
  Np.take a (map snd l) = Ok (map fst l).
Proof.
  induction 1 as [|p tl Hp _ IH]; simpl; [done|].
  by rewrite Hp, IH.
Qed.

Lemma zip_seq_lookup (a : list Z) :
  Forall (fun p => a !! snd p = Some (fst p)) (zip a (seq 0 (length a))).
Proof.
  apply Forall_lookup. intros k [v i] Hk. simpl.
  apply lookup_zip_with_Some in Hk as (x & y & Heq & Hx & Hy).
  inversion Heq; subst. by apply lookup_seq in Hy as [-> _].
Qed.

(** the insertion sort meets what is asked of [np.argsort] *)
Lemma argsort_is_argsort (a : list Z) : Np.is_argsort a (Np.argsort a).
Proof.
  unfold Np.is_argsort, Np.argsort. split.
  - rewrite sort_pairs_perm. rewrite snd_zip; [done|].
    by rewrite length_seq.
  - exists (map fst (Np.sort_pairs (zip a (seq 0 (length a))))). split.
    + apply take_pairs. rewrite sort_pairs_perm. apply zip_seq_lookup.
    + apply sorted_fst, sort_pairs_sorted.
Qed.

(** [np.diff] does not wrap on a sorted int64 array whose elements are less
    than 2^63 apart *)
Lemma diff_sorted_no_wrap (r : list Z) :
  StronglySorted Z.le r -> Np.no_wrap r ->
  forallb (fun d => 0 <=? d) (Np.diff_int64 r) = true.
Proof.
  induction 1 as [|x tl Hs IH Hx]; intros Hr; [done|].
  destruct tl as [|y tl]; [done|].
  change (Np.diff_int64 (x :: y :: tl))
    with (Np.wrap_signed 64 (y - x) :: Np.diff_int64 (y :: tl)).
  simpl forallb. rewrite IH, andb_true_r.
  - apply Forall_cons in Hx as [Hxy _].
    assert (y - x <= Np.int64_max) as Hd.
    { apply Hr; [left | right; left]. }
    unfold Np.int64_max in Hd. apply Z.leb_le. unfold Np.wrap_signed.
    change (2 ^ (64 - 1)) with 9223372036854775808.
    change (2 ^ 64) with 18446744073709551616.
    change (2 ^ 63 - 1) with 9223372036854775807 in Hd.
    rewrite Z.mod_small by lia. lia.
  - intros a b Ha Hb. apply Hr; by right.
Qed.


Lemma no_wrap_subset (l r : list Z) :
  Forall (fun x => x ∈ l) r -> Np.no_wrap l -> Np.no_wrap r.
Proof.
  intros H Hl x y Hx Hy. rewrite Forall_forall in H. apply Hl; by apply H.
Qed.

End ArgsortFacts.

(** ** binary64 *)

Section Float64Facts.

Local Open Scope Z_scope.

Lemma digits2_pos_bounds (m : positive) :
  2 ^ (Zpos (digits2_pos m) - 1) <= Zpos m < 2 ^ Zpos (digits2_pos m).
Proof.
  induction m as [p IH|p IH|]; simpl digits2_pos.
  - rewrite Pos2Z.inj_succ, (Pos2Z.inj_xI p).
    replace (Z.succ (Zpos (digits2_pos p)) - 1)
      with (Z.succ (Zpos (digits2_pos p) - 1)) by lia.
    rewrite !Z.pow_succ_r by lia. lia.
  - rewrite Pos2Z.inj_succ, (Pos2Z.inj_xO p).
    replace (Z.succ (Zpos (digits2_pos p)) - 1)
      with (Z.succ (Zpos (digits2_pos p) - 1)) by lia.
    rewrite !Z.pow_succ_r by lia. lia.
  - simpl. lia.
Qed.

Lemma iter_xO_value (m d : positive) :
  Zpos (Pos.iter xO m d) = Zpos m * 2 ^ Zpos d.
Proof.
  induction d as [|d IH] using Pos.peano_ind.
  - simpl. lia.
  - rewrite Pos.iter_succ, (Pos2Z.inj_xO (Pos.iter xO m d)), IH, Pos2Z.inj_succ.
    rewrite Z.pow_succ_r by lia. lia.
Qed.

Lemma iter_xO_digits (m d : positive) :
  digits2_pos (Pos.iter xO m d) = (digits2_pos m + d)%positive.
Proof.
  induction d as [|d IH] using Pos.peano_ind.
  - simpl. lia.
  - rewrite Pos.iter_succ. simpl. rewrite IH. lia.
Qed.

(** one step of [shr] halves the mantissa *)
Lemma shr_1_m (mrs : shr_record) :
  0 <= shr_m mrs -> shr_m (shr_1 mrs) = shr_m mrs / 2.
Proof.
  destruct mrs as [m r s]. simpl. intros Hm.
  destruct m as [|[p|p|]|p]; cbn [shr_m]; try lia; try done.
  - apply Z.div_unique with 1; lia.
  - apply Z.div_unique with 0; lia.
Qed.

Lemma iter_shr_1_m (n : positive) (mrs : shr_record) :
  0 <= shr_m mrs ->
  shr_m (SpecFloat.iter_pos shr_1 n mrs) = shr_m mrs / 2 ^ Zpos n.
Proof.
  revert mrs. induction n as [n IH|n IH|]; intros mrs Hm; cbn [SpecFloat.iter_pos].
  - assert (0 <= shr_m (shr_1 mrs)) as H1.
    { rewrite shr_1_m by done. by apply Z.div_pos. }
    assert (0 <= shr_m (SpecFloat.iter_pos shr_1 n (shr_1 mrs))) as H2.
    { rewrite IH by done. apply Z.div_pos; lia. }
    rewrite IH, IH, shr_1_m by done.
    rewrite !Z.div_div by lia. f_equal.
    rewrite (Pos2Z.inj_xI n).
    replace (2 * Zpos n + 1) with (1 + Zpos n + Zpos n) by lia.
    rewrite !Z.pow_add_r by lia. lia.
  - assert (0 <= shr_m (SpecFloat.iter_pos shr_1 n mrs)) as H2.
    { rewrite IH by done. apply Z.div_pos; lia. }
    rewrite IH, IH by done.
    rewrite !Z.div_div by lia. f_equal.
    rewrite (Pos2Z.inj_xO n).
    replace (2 * Zpos n) with (Zpos n + Zpos n) by lia.
    rewrite !Z.pow_add_r by lia. lia.
  - rewrite shr_1_m by done. done.
Qed.

Lemma shr_record_of_loc_m (m : Z) (l : location) :
  shr_m (shr_record_of_loc m l) = m.
Proof. by destruct l as [|[]]. Qed.

(** shifting a mantissa down to its format exponent leaves it positive, as
    long as the exponent is not below [emin] *)
Lemma shr_fexp_pos (m : positive) (e : Z) (l : location) mrs e' :
  -1074 <= e ->
  shr_fexp 53 1024 (Zpos m) e l = (mrs, e') ->
  0 < shr_m mrs /\ -1074 <= e'.
Proof.
  intros He. unfold shr_fexp, shr. cbn [Zdigits2].
  pose proof (digits2_pos_bounds m) as [Hlo _].
  set (d := Zpos (digits2_pos m)) in *.
  assert (0 < d) as Hd by (unfold d; lia).
  destruct (fexp 53 1024 (d + e) - e) as [|p|p] eqn:Hn.
  - intros [= <- <-]. rewrite shr_record_of_loc_m. lia.
  - intros [= <- <-].
    rewrite iter_shr_1_m by (rewrite shr_record_of_loc_m; lia).
    rewrite shr_record_of_loc_m.
    unfold fexp, emin in Hn.
    assert (Zpos p = d - 53) as Hp by lia.
    split; [|lia].
    apply Z.div_str_pos. split; [lia|].
    etrans; [|exact Hlo]. apply Z.pow_le_mono_r; lia.
  - intros [= <- <-]. rewrite shr_record_of_loc_m. lia.
Qed.

Lemma round_nearest_even_pos (m : Z) (l : location) :
  0 < m -> 0 < round_nearest_even m l.
Proof.
  intros Hm. destruct l as [|[]]; simpl; try lia.
  destruct (Z.even m); lia.
Qed.

(** rounding a non-zero number never gives zero (nor NaN) unless it
    underflows *)
Lemma binary_round_aux_not_zero s (m : positive) (e : Z) (l : location) :
  -1074 <= e ->
  Np.ne_zero (binary_round_aux 53 1024 s (Zpos m) e l) = true.
Proof.
  intros He. unfold binary_round_aux.
  destruct (shr_fexp 53 1024 (Zpos m) e l) as [mrs' e1] eqn:H1.
  apply shr_fexp_pos in H1 as [Hm1 He1]; [|done].
  pose proof (round_nearest_even_pos _ (loc_of_shr_record mrs') Hm1) as Hr.
  destruct (round_nearest_even (shr_m mrs') (loc_of_shr_record mrs'))
    as [|m2|m2]; try lia.
  destruct (shr_fexp 53 1024 (Zpos m2) e1 loc_Exact) as [mrs'' e2] eqn:H2.
  apply shr_fexp_pos in H2 as [Hm2 He2]; [|done].
  destruct (shr_m mrs'') as [|m3|m3]; try lia.
  by destruct (e2 <=? 1024 - 53), s.
Qed.

Lemma shl_align_spec (m : positive) (e e' : Z) :
  e' <= e ->
  Zpos (fst (shl_align m e e')) = Zpos m * 2 ^ (e - e')
  /\ snd (shl_align m e e') = e'.
Proof.
  intros He. unfold shl_align.
  destruct (e' - e) as [|p|p] eqn:Hd; simpl; try lia.
  - replace (e - e') with 0 by lia. simpl. lia.
  - rewrite iter_xO_value. replace (e - e') with (Zpos p) by lia. done.
Qed.

Lemma binary_round_not_zero s (m : positive) (e : Z) :
  -1074 <= e -> Np.ne_zero (binary_round 53 1024 s m e) = true.
Proof.
  intros He. unfold binary_round.
  destruct (shl_align m e (fexp 53 1024 (Zpos (digits2_pos m) + e)))
    as [mz ez] eqn:Hs.
  apply binary_round_aux_not_zero.
  unfold shl_align in Hs.
  destruct (fexp 53 1024 (Zpos (digits2_pos m) + e) - e) eqn:Hd;
    inversion Hs; subst; try done.
  unfold fexp, emin. lia.
Qed.

(** a number of 53 bits with an exponent in range is its own rounding *)
Lemma binary_round_aux_canonical s (m : positive) (e : Z) :
  Zpos (digits2_pos m) = 53 -> -1074 <= e <= 971 ->
  binary_round_aux 53 1024 s (Zpos m) e loc_Exact = S754_finite s m e.
Proof.
  intros Hd He.
  assert (shr_fexp 53 1024 (Zpos m) e loc_Exact
          = ({| shr_m := Zpos m; shr_r := false; shr_s := false |}, e)) as Hs.
  { unfold shr_fexp. cbn [Zdigits2]. rewrite Hd.
    replace (fexp 53 1024 (53 + e) - e) with 0
      by (unfold fexp, emin; lia).
    done. }
  unfold binary_round_aux. rewrite Hs. cbn [shr_m loc_of_shr_record
    round_nearest_even]. rewrite Hs. cbn [shr_m].
  replace (e <=? 1024 - 53) with true; [done|].
  symmetry. apply Z.leb_le. lia.
Qed.

(** the float64 of a positive integer below 2^53 holds it exactly *)
Lemma float64_of_small (a : positive) :
  Zpos a < 2 ^ 53 ->
  exists m e,
    Np.float64_of_int (Zpos a) = S754_finite false m e
    /\ -52 <= e <= 0 /\ Zpos m = Zpos a * 2 ^ (- e).
Proof.
  intros Ha. unfold Np.float64_of_int, Np.prec, Np.emax, binary_normalize,
    binary_round.
  pose proof (digits2_pos_bounds a) as [Hlo Hhi].
  remember (Zpos (digits2_pos a)) as d eqn:Hdef.
  assert (0 < d) as Hd0 by lia.
  assert (d <= 53) as Hd.
  { destruct (Z.le_gt_cases d 53) as [|Hgt]; [done|]. exfalso.
    assert (2 ^ 53 <= 2 ^ (d - 1)) by (apply Z.pow_le_mono_r; lia). lia. }
  replace (fexp 53 1024 (d + 0)) with (d - 53) by (unfold fexp, emin; lia).
  pose proof (shl_align_spec a 0 (d - 53) ltac:(lia)) as [Hm He].
  destruct (shl_align a 0 (d - 53)) as [mz ez] eqn:Hs.
  simpl in Hm, He. subst ez.
  exists mz, (d - 53). split; [|split; [lia|]].
  - apply binary_round_aux_canonical; [|lia].
    unfold shl_align in Hs.
    destruct (d - 53 - 0) as [|p|p] eqn:Hp; inversion Hs; subst mz;
      try lia.
    rewrite iter_xO_digits, Pos2Z.inj_add. lia.
  - rewrite Hm. replace (0 - (d - 53)) with (- (d - 53)) by lia. done.
Qed.

Lemma sub_finite_ne_zero (m1 m2 : positive) (e1 e2 : Z) :
  -1074 <= e1 -> -1074 <= e2 ->
  Np.ne_zero (Np.sub (S754_finite false m1 e1) (S754_finite false m2 e2))
  = negb (Zpos m1 * 2 ^ (e1 - Z.min e1 e2)
          =? Zpos m2 * 2 ^ (e2 - Z.min e1 e2)).
Proof.
  intros He1 He2. unfold Np.sub, Np.prec, Np.emax, SFsub. cbn [cond_Zopp].
  destruct (shl_align_spec m1 e1 (Z.min e1 e2) ltac:(lia)) as [-> _].
  destruct (shl_align_spec m2 e2 (Z.min e1 e2) ltac:(lia)) as [-> _].
  set (M1 := Zpos m1 * 2 ^ (e1 - Z.min e1 e2)).
  set (M2 := Zpos m2 * 2 ^ (e2 - Z.min e1 e2)).
  destruct (Z.eqb_spec M1 M2) as [Heq|Hne].
  - rewrite Heq, Z.sub_diag. done.
  - destruct (M1 - M2) as [|p|p] eqn:Hd; [lia| |];
      unfold binary_normalize; apply binary_round_not_zero; lia.
Qed.

(** on integers below 2^53 the float64 difference is zero exactly when the
    integers are equal *)
Lemma sub_small_ne_zero (a b : Z) :
  0 <= a < 2 ^ 53 -> 0 <= b < 2 ^ 53 ->
  Np.ne_zero (Np.sub (Np.float64_of_int a) (Np.float64_of_int b))
  = negb (a =? b).
Proof.
  intros Ha Hb.
  destruct a as [|a|a]; [| |lia]; (destruct b as [|b|b]; [| |lia]).
  - done.
  - destruct (float64_of_small b) as (m & e & -> & _); [lia|]. done.
  - destruct (float64_of_small a) as (m & e & -> & _); [lia|]. done.
  - destruct (float64_of_small a) as (m1 & e1 & -> & He1 & Hm1); [lia|].
    destruct (float64_of_small b) as (m2 & e2 & -> & He2 & Hm2); [lia|].
    rewrite sub_finite_ne_zero by lia. f_equal.
    rewrite Hm1, Hm2, <- !Z.mul_assoc, <- !Z.pow_add_r by lia.
    replace (- e1 + (e1 - Z.min e1 e2)) with (- Z.min e1 e2) by lia.
    replace (- e2 + (e2 - Z.min e1 e2)) with (- Z.min e1 e2) by lia.
    assert (0 < 2 ^ (- Z.min e1 e2)) as Hp by (apply Z.pow_pos_nonneg; lia).
    destruct (Z.eqb_spec (Zpos a) (Zpos b)) as [Heq|Hne].
    + rewrite Heq. apply Z.eqb_refl.
    + apply Z.eqb_neq. intros H. apply Hne.
      by apply Z.mul_cancel_r in H; [|lia].
Qed.

End Float64Facts.

(** ** Event sources *)

Module EventsFacts.

Import Events.

(** *** Construction *)

Lemma same_length4_spec {A B C D} (a : list A) (b : list B) (c : list C)
    (d : list D) :
  same_length4 a b c d = true <->
  length a = length b /\ length b = length c /\ length c = length d.
Proof.
  unfold same_length4. rewrite !andb_true_iff, !Nat.eqb_eq. tauto.
Qed.

Lemma same_length3_spec {A B C} (a : list A) (b : list B) (c : list C) :
  same_length3 a b c = true <->
  length a = length b /\ length b = length c.
Proof.
  unfold same_length3. rewrite !andb_true_iff, !Nat.eqb_eq. tauto.
Qed.

(** C9, as the code has it: [Event] refuses arrays of different lengths
    when it is constructed; [FullWordEvent] is constructed from any arrays
    and its lengths are compared only when its length is asked for. *)
Theorem length_invariant_checks :
  forall md (fw : list Z) (ts : list spec_float) (st sn : list Z),
    (Event_init md fw ts st sn = Raise LengthMismatch <->
       ~ (length fw = length ts /\ length ts = length st
          /\ length st = length sn))
    /\ (exists w, FullWordEvent_init md fw ts sn = Ok w
          /\ fw_full_words w = fw /\ fw_timestamps w = ts
          /\ fw_sample_numbers w = sn
          /\ (FullWordEvent_len w = Raise LengthMismatch <->
                ~ (length fw = length ts /\ length ts = length sn))).
Proof.
  intros md fw ts st sn. split.
  - unfold Event_init. pose proof (same_length4_spec fw ts st sn) as H.
    destruct (same_length4 fw ts st sn).
    + split; [discriminate|]. intros Hn. exfalso. apply Hn. by apply H.
    + split; [|done]. intros _ Hl. apply H in Hl. discriminate.
  - eexists. split; [reflexivity|]. simpl. repeat split; try done.
    + unfold FullWordEvent_len. simpl.
      pose proof (same_length3_spec fw ts sn) as H.
      destruct (same_length3 fw ts sn); [discriminate|].
      intros _ Hl. apply H in Hl. discriminate.
    + unfold FullWordEvent_len. simpl.
      pose proof (same_length3_spec fw ts sn) as H.
      destruct (same_length3 fw ts sn); [|done].
      intros Hn. exfalso. apply Hn. by apply H.
Qed.

(** C9 as stated fails: a [FullWordEvent] with two words, no timestamp and
    no sample number is constructed without complaint. *)
Lemma full_word_event_unchecked :
  FullWordEvent_init Fixtures.network_events [1; 2] [] []
  = Ok {| fw_metadata := Fixtures.network_events; fw_full_words := [1; 2];
          fw_timestamps := []; fw_sample_numbers := [] |}.
Proof. reflexivity. Qed.

(** *** Removing repeated words *)

Lemma sub_nan (x : spec_float) : Np.sub x Np.nan = S754_nan.
Proof. by destruct x. Qed.

Lemma where_from_shift i mask :
  Np.where_from (S i) mask = map S (Np.where_from i mask).
Proof.
  revert i. induction mask as [|b tl IH]; intros i; [done|].
  simpl. rewrite IH. by destruct b.
Qed.

(** the first sample is kept whatever its word: its difference is NaN *)
Lemma first_sample_kept (w : Z) (ws : list Z) :
  exists rest, unique_indices (w :: ws) = 0%nat :: rest.
Proof.
  unfold unique_indices, Np.diff_prepend_nan. cbn [map Np.adjacent].
  rewrite sub_nan. by eexists.
Qed.

Lemma single_sample_kept (w : Z) : unique_indices [w] = [0%nat].
Proof.
  unfold unique_indices, Np.diff_prepend_nan. cbn [map Np.adjacent].
  by rewrite sub_nan.
Qed.

Lemma adjacent_cons {A B} (f : A -> A -> B) x y l :
  Np.adjacent f (x :: y :: l) = f x y :: Np.adjacent f (y :: l).
Proof. reflexivity. Qed.

(** for words below 2^53, which float64 holds exactly, the samples kept
    are the first one and those whose word differs from the word before *)
Lemma changed_mask_small (p : Z) (ws : list Z) :
  0 <= p < 2 ^ 53 -> Forall (fun w => 0 <= w < 2 ^ 53) ws ->
  map Np.ne_zero
    (Np.adjacent (fun x y => Np.sub y x)
       (Np.float64_of_int p :: map Np.float64_of_int ws))
  = changed_from (Some p) ws.
Proof.
  intros Hp Hws. revert p Hp.
  induction Hws as [|w ws Hw _ IH]; intros p Hp; [done|].
  rewrite map_cons, adjacent_cons, map_cons, IH by done.
  by rewrite sub_small_ne_zero.
Qed.

Lemma unique_indices_small (words : list Z) :
  Forall (fun w => 0 <= w < 2 ^ 53) words ->
  unique_indices words = changed_indices words.
Proof.
  unfold unique_indices, changed_indices, Np.diff_prepend_nan.
  intros [|w ws Hw Hws]; [done|].
  rewrite map_cons, adjacent_cons, map_cons, sub_nan.
  by rewrite changed_mask_small.
Qed.

(** the words [5,5,5,7,7,2] keep the samples 0, 3 and 5 *)
Lemma unique_indices_example :
  unique_indices [5; 5; 5; 7; 7; 2] = [0; 3; 5]%nat.
Proof. vm_compute. reflexivity. Qed.

Lemma remove_repeating_example md ts sn :
  length ts = 6%nat -> length sn = 6%nat ->
  exists w,
    remove_repeating_simultaneous_words
      {| metadata := md; full_words := [5; 5; 5; 7; 7; 2]; timestamps := ts;
         states := [1; 1; 1; 2; 2; -1]; sample_numbers := sn |} = Ok w
    /\ fw_full_words w = [5; 7; 2]
    /\ Some <$> fw_timestamps w = [ts !! 0%nat; ts !! 3%nat; ts !! 5%nat]
    /\ Some <$> fw_sample_numbers w = [sn !! 0%nat; sn !! 3%nat; sn !! 5%nat].
Proof.
  intros Hts Hsn.
  destruct ts as [|t0 [|t1 [|t2 [|t3 [|t4 [|t5 [|]]]]]]]; try discriminate.
  destruct sn as [|s0 [|s1 [|s2 [|s3 [|s4 [|s5 [|]]]]]]]; try discriminate.
  eexists. split; [reflexivity|]. by repeat split.
Qed.

(** C1: two consecutive samples whose words differ (2^53 and 2^53 + 1);
    the second one is removed all the same, because both words become the
    same float64 once NaN is put in front of the array. *)
Theorem changed_word_dropped :
  remove_repeating_simultaneous_words Fixtures.high_words
  = Ok {| fw_metadata := Fixtures.network_events;
          fw_full_words := [9007199254740992];
          fw_timestamps := [Fixtures.decimal 1 1000];
          fw_sample_numbers := [30] |}
  /\ unique_indices (full_words Fixtures.high_words) = [0%nat]
  /\ changed_indices (full_words Fixtures.high_words) = [0%nat; 1%nat].
Proof. repeat split; vm_compute; reflexivity. Qed.

(** *** Finding the sources *)



Lemma find_ev02_is_ev02 events e :
  find_ev02_source events = Some e -> is_ev02 e = true.
Proof.
  induction events as [|x tl IH]; [done|]. simpl.
  destruct (is_ev02 x) eqn:Hx; [|done]. by intros [= ->].
Qed.

Lemma find_marker_is_marker events e :
  find_marker_source events = Some e -> is_marker e = true.
Proof.
  induction events as [|x tl IH]; [done|]. simpl.
  destruct (is_marker x) eqn:Hx; [|done]. by intros [= ->].
Qed.






(** *** Loading the two sources *)

Lemma load_ev02 dir md :
  is_ev02 md = true ->
  event_from_eventfolder dir md
  = match dir !! folder_name md with
    | None => (Raise EventsFolderMissing, [])
    | Some f => (let* e := Event_from_folder f md in Ok (IsEvent e), [])
    end.
Proof.
  unfold is_ev02, event_from_eventfolder. intros [H _]%andb_true_iff.
  apply String.eqb_eq in H. rewrite H. by destruct (dir !! folder_name md).
Qed.

Lemma load_marker dir md :
  is_marker md = true ->
  event_from_eventfolder dir md
  = match dir !! folder_name md with
    | None => (Raise EventsFolderMissing, [])
    | Some f =>
        (let* e := Event_from_folder f md in
         let* w := remove_repeating_simultaneous_words e in
         Ok (IsFullWordEvent w), [])
    end.
Proof.
  unfold is_marker, event_from_eventfolder. intros H.
  rewrite H. by destruct (dir !! folder_name md).
Qed.

Lemma Event_from_folder_ok f md e :
  Event_from_folder f md = Ok e ->
  timestamps e = timestamps_npy f /\ states e = states_npy f
  /\ full_words e = full_words_npy f
  /\ sample_numbers e = sample_numbers_npy f /\ metadata e = md
  /\ length (timestamps e) = length (states e)
  /\ length (full_words e) = length (timestamps e)
  /\ length (timestamps e) = length (sample_numbers e).
Proof.
  unfold Event_from_folder, Event_init.
  destruct (same_length4 _ _ _ _) eqn:Hl; [|discriminate].
  apply same_length4_spec in Hl as (H1 & H2 & H3).
  intros [= <-]. simpl. repeat split; congruence.
Qed.

Lemma remove_repeating_ok e w :
  remove_repeating_simultaneous_words e = Ok w ->
  Np.take (full_words e) (unique_indices (full_words e)) = Ok (fw_full_words w)
  /\ Np.take (timestamps e) (unique_indices (full_words e))
      = Ok (fw_timestamps w)
  /\ Np.take (sample_numbers e) (unique_indices (full_words e))
      = Ok (fw_sample_numbers w).
Proof.
  unfold remove_repeating_simultaneous_words, FullWordEvent_init.
  intros H.
  apply rbind_ok in H as (fw & Hfw & H).
  apply rbind_ok in H as (ts & Hts & H).
  apply rbind_ok in H as (sn & Hsn & H).
  inversion H; subst; simpl. done.
Qed.

(** the contribution of the hardware trigger source, when it loads *)
Lemma ev02_part_ok dir events p w :
  ev02_part dir events = (Ok p, w) ->
  w = [] /\
  match find_ev02_source events with
  | None => p = ([], [])
  | Some md =>
      exists f, dir !! folder_name md = Some f
        /\ p = (map Np.seconds_to_ns (timestamps_npy f), states_npy f)
        /\ length (timestamps_npy f) = length (states_npy f)
  end.
Proof.
  unfold ev02_part.
  destruct (find_ev02_source events) as [md|] eqn:Hmd.
  - rewrite (load_ev02 _ _ (find_ev02_is_ev02 _ _ Hmd)).
    destruct (dir !! folder_name md) as [f|]; [|discriminate].
    destruct (Event_from_folder f md) as [e|] eqn:He; [|discriminate].
    apply Event_from_folder_ok in He as (Ht & Hs & _ & _ & _ & Hl & _).
    simpl. intros [= <- <-]. split; [done|]. exists f.
    rewrite <- Ht, <- Hs. done.
  - intros [= <- <-]. done.
Qed.

(** the two arrays after the marker source is appended, when it loads *)
Lemma marker_part_ok dir events offset acc p w :
  marker_part dir events offset acc = (Ok p, w) ->
  w = [] /\
  match find_marker_source events with
  | None => p = acc
  | Some md =>
      exists f mts mws,
        dir !! folder_name md = Some f
        /\ Np.take (timestamps_npy f) (unique_indices (full_words_npy f))
            = Ok mts
        /\ Np.take (full_words_npy f) (unique_indices (full_words_npy f))
            = Ok mws
        /\ p = (map (Np.wrap_signed 64)
                  (fst acc ++ map Np.seconds_to_ns mts),
                map (Np.wrap_signed 32)
                  (snd acc ++ map (fun x => x + offset) mws))
  end.
Proof.
  unfold marker_part.
  destruct (find_marker_source events) as [md|] eqn:Hmd.
  - rewrite (load_marker _ _ (find_marker_is_marker _ _ Hmd)).
    destruct (dir !! folder_name md) as [f|]; [|discriminate].
    destruct (Event_from_folder f md) as [e|] eqn:He; [|discriminate].
    apply Event_from_folder_ok in He as (Ht & _ & Hfw & _).
    simpl.
    destruct (remove_repeating_simultaneous_words e) as [fw|] eqn:Hr;
      [|discriminate].
    apply remove_repeating_ok in Hr as (Hw & Hts & _).
    simpl. intros [= <- <-]. split; [done|].
    exists f, (fw_timestamps fw), (fw_full_words fw).
    rewrite <- Ht, <- Hfw. done.
  - intros [= <- <-]. done.
Qed.




Lemma mbind_ok {A B} (m : M A) (k : A -> M B) b :
  fst (mbind m k) = Ok b ->
  exists a w, m = (Ok a, w) /\ fst (k a) = Ok b.
Proof.
  destruct m as [[a|e] w]; simpl; [|discriminate].
  intros H. exists a, w. split; [done|]. by destruct (k a).
Qed.

Lemma mbind_raise {A B} (m : M A) (k : A -> M B) e :
  fst (mbind m k) = Raise e ->
  fst m = Raise e \/ exists a w, m = (Ok a, w) /\ fst (k a) = Raise e.
Proof.
  destruct m as [[a|e'] w]; simpl; intros H.
  - right. exists a, w. split; [done|]. by destruct (k a).
  - left. by inversion H.
Qed.


(** *** Which exceptions can come from where *)

Lemma take_raise {A} (a : list A) idx e :
  Np.take a idx = Raise e -> e = IndexError.
Proof.
  induction idx as [|i tl IH]; simpl; [discriminate|].
  destruct (a !! i); [|by intros [= <-]].
  destruct (Np.take a tl); simpl; [discriminate|].
  intros [= <-]. by apply IH.
Qed.

Lemma remove_repeating_raise ev e :
  remove_repeating_simultaneous_words ev = Raise e -> e = IndexError.
Proof.
  unfold remove_repeating_simultaneous_words, FullWordEvent_init.
  destruct (Np.take (full_words ev) _) eqn:H1; simpl;
    [|intros [= <-]; by eapply take_raise].
  destruct (Np.take (timestamps ev) _) eqn:H2; simpl;
    [|intros [= <-]; by eapply take_raise].
  destruct (Np.take (sample_numbers ev) _) eqn:H3; simpl;
    [discriminate|intros [= <-]; by eapply take_raise].
Qed.

Lemma Event_from_folder_raise f md e :
  Event_from_folder f md = Raise e -> e = LengthMismatch.
Proof.
  unfold Event_from_folder, Event_init.
  destruct (same_length4 _ _ _ _); [discriminate|]. by intros [= <-].
Qed.

Lemma ev02_part_raise dir events e :
  fst (ev02_part dir events) = Raise e ->
  e = EventsFolderMissing \/ e = LengthMismatch.
Proof.
  unfold ev02_part.
  destruct (find_ev02_source events) as [md|] eqn:Hmd; [|discriminate].
  rewrite (load_ev02 _ _ (find_ev02_is_ev02 _ _ Hmd)).
  destruct (dir !! folder_name md) as [f|]; [|intros [= <-]; by left].
  destruct (Event_from_folder f md) as [ev|e'] eqn:He; simpl; [discriminate|].
  intros [= <-]. right. by eapply Event_from_folder_raise.
Qed.

Lemma marker_part_raise dir events offset acc e :
  fst (marker_part dir events offset acc) = Raise e ->
  e = EventsFolderMissing \/ e = LengthMismatch \/ e = IndexError.
Proof.
  unfold marker_part.
  destruct (find_marker_source events) as [md|] eqn:Hmd; [|discriminate].
  rewrite (load_marker _ _ (find_marker_is_marker _ _ Hmd)).
  destruct (dir !! folder_name md) as [f|]; [|intros [= <-]; by left].
  destruct (Event_from_folder f md) as [ev|e'] eqn:He; simpl.
  - destruct (remove_repeating_simultaneous_words ev) eqn:Hr; simpl;
      [discriminate|].
    intros [= <-]. right; right. by eapply remove_repeating_raise.
  - intros [= <-]. right; left. by eapply Event_from_folder_raise.
Qed.

Lemma write_names_raise offset names attrs e :
  write_names offset names attrs = Raise e -> e = OverflowError.
Proof.
  revert attrs. induction names as [|[n c] tl IH]; intros attrs; simpl;
    [discriminate|].
  unfold Np.int32_of_pyint. destruct (_ && _); simpl; [apply IH|].
  by intros [= <-].
Qed.

Lemma write_names_opt_raise offset names attrs e :
  write_names_opt offset names attrs = Raise e -> e = OverflowError.
Proof. destruct names; simpl; [apply write_names_raise | discriminate]. Qed.

(** *** Sorting the merged arrays *)

Lemma seconds_to_ns_range t :
  Np.int64_min <= Np.seconds_to_ns t <= Np.int64_max.
Proof.
  unfold Np.seconds_to_ns, Np.int64_of_round.
  destruct (Np.round_to_int _) as [z|]; [|done].
  destruct ((Np.int64_min <=? z) && (z <=? Np.int64_max)) eqn:H; [|done].
  apply andb_true_iff in H as [H1 H2]. lia.
Qed.

Lemma wrap_signed_64_id z :
  Np.int64_min <= z <= Np.int64_max -> Np.wrap_signed 64 z = z.
Proof.
  unfold Np.int64_min, Np.int64_max, Np.wrap_signed.
  change (2 ^ (64 - 1)) with 9223372036854775808.
  change (2 ^ 64) with 18446744073709551616.
  change (2 ^ 63) with 9223372036854775808.
  intros H. rewrite Z.mod_small; lia.
Qed.


Lemma wrap_seconds_to_ns (ts : list spec_float) :
  map (Np.wrap_signed 64) (map Np.seconds_to_ns ts) = map Np.seconds_to_ns ts.
Proof.
  induction ts as [|t tl IH]; [done|]. simpl.
  by rewrite IH, (wrap_signed_64_id _ (seconds_to_ns_range t)).
Qed.

Section Sorting.

Variable argsort : list Z -> list nat.
Hypothesis argsort_ok : forall a, Np.is_argsort a (argsort a).

Lemma sort_and_check_ok tc ts cs :
  sort_and_check argsort tc = Ok (ts, cs) ->
  StronglySorted Z.le ts
  /\ Np.take (fst tc) (argsort (fst tc)) = Ok ts
  /\ Np.take (snd tc) (argsort (fst tc)) = Ok cs.
Proof.
  unfold sort_and_check. intros H.
  apply rbind_ok in H as (ts' & Hts & H).
  apply rbind_ok in H as (cs' & Hcs & H).
  destruct (forallb _ _); [|discriminate]. inversion H; subst.
  destruct (argsort_ok (fst tc)) as (_ & r & Hr & Hs).
  split; [congruence | done].
Qed.

Lemma sort_and_check_passes tc :
  Np.no_wrap (fst tc) ->
  sort_and_check argsort tc <> Raise TimestampsNotMonotonic.
Proof.
  unfold sort_and_check. intros Hr H.
  destruct (argsort_ok (fst tc)) as (_ & r & Hts & Hs).
  rewrite Hts in H. simpl in H.
  destruct (Np.take (snd tc) _) eqn:Hcs; simpl in H;
    [|by apply take_raise in Hcs; congruence].
  rewrite diff_sorted_no_wrap in H; [done | done |].
  apply take_elem_of in Hts. by eapply no_wrap_subset.
Qed.

Lemma argsort_in_range (a : list Z) :
  Forall (fun i => (i < length a)%nat) (argsort a).
Proof.
  destruct (argsort_ok a) as (Hp & _).
  rewrite Hp. apply Forall_forall. intros i Hi.
  apply elem_of_seq in Hi. lia.
Qed.

Lemma argsort_length (a : list Z) : length (argsort a) = length a.
Proof.
  destruct (argsort_ok a) as (Hp & _).
  by rewrite Hp, length_seq.
Qed.



End Sorting.


(** *** The merged trigger stream *)

Lemma converted_from_recording dir name f (ts : list spec_float) :
  dir !! name = Some f -> Forall (fun t => t ∈ timestamps_npy f) ts ->
  Forall (from_recording dir) (map Np.seconds_to_ns ts).
Proof.
  intros Hf H. apply Forall_fmap. eapply Forall_impl; [exact H|].
  intros t Ht. by exists name, f, t.
Qed.

Lemma merged_timestamps_origin dir events offset p w tc w' :
  ev02_part dir events = (Ok p, w) ->
  marker_part dir events offset p = (Ok tc, w') ->
  Forall (from_recording dir) (fst tc).
Proof.
  intros Hp Htc.
  apply ev02_part_ok in Hp as [_ Hp]. apply marker_part_ok in Htc as [_ Htc].
  assert (Forall (from_recording dir) (fst p)) as Hp1.
  { destruct (find_ev02_source events) as [md|].
    - destruct Hp as (f & Hf & -> & _). simpl.
      eapply converted_from_recording; [exact Hf|].
      by apply Forall_forall.
    - subst p. constructor. }
  destruct (find_marker_source events) as [md|]; [|by subst].
  destruct Htc as (f & mts & mws & Hf & Hmts & _ & ->). simpl.
  rewrite map_app. apply Forall_app. split.
  - apply Forall_fmap. eapply Forall_impl; [exact Hp1|].
    intros x (name & f' & t & Hf' & Ht & ->). unfold compose.
    rewrite wrap_signed_64_id by apply seconds_to_ns_range.
    by exists name, f', t.
  - rewrite wrap_seconds_to_ns.
    eapply converted_from_recording; [exact Hf|].
    by eapply take_elem_of.
Qed.

Lemma merged_timestamps_no_wrap dir events offset p w tc w' :
  narrow_span dir ->
  ev02_part dir events = (Ok p, w) ->
  marker_part dir events offset p = (Ok tc, w') ->
  Np.no_wrap (fst tc).
Proof.
  intros Hdir Hp Htc x y Hx Hy.
  pose proof (merged_timestamps_origin _ _ _ _ _ _ _ Hp Htc) as H.
  rewrite Forall_forall in H.
  destruct (H _ Hx) as (n1 & f1 & t & Hf1 & Ht & ->).
  destruct (H _ Hy) as (n2 & f2 & u & Hf2 & Hu & ->).
  exact (Hdir _ _ _ _ _ _ Hf1 Hf2 Ht Hu).
Qed.

(** timestamps that are not negative are less than 2^63 ns apart *)
Lemma nonneg_narrow_span dir : nonneg_timestamps dir -> narrow_span dir.
Proof.
  intros H n1 f1 n2 f2 t u Hf1 Hf2 Ht Hu.
  pose proof (H _ _ Hf1) as H1. rewrite Forall_forall in H1.
  specialize (H1 _ Ht). cbv beta in H1.
  pose proof (seconds_to_ns_range u). lia.
Qed.

Lemma merged_lengths dir events offset p w tc w' :
  ev02_part dir events = (Ok p, w) ->
  marker_part dir events offset p = (Ok tc, w') ->
  length (fst tc) = length (snd tc).
Proof.
  intros Hp Htc.
  apply ev02_part_ok in Hp as [_ Hp]. apply marker_part_ok in Htc as [_ Htc].
  assert (length (fst p) = length (snd p)) as Hp1.
  { destruct (find_ev02_source events) as [md|].
    - destruct Hp as (f & Hf & -> & Hl). simpl. by rewrite length_map.
    - by subst p. }
  destruct (find_marker_source events) as [md|]; [|by subst].
  destruct Htc as (f & mts & mws & Hf & Hmts & Hmws & ->). simpl.
  rewrite !length_map, !length_app, !length_map, Hp1.
  apply take_length in Hmts, Hmws. lia.
Qed.

(** whatever [np.argsort] returns, the timestamps of a trigger stream that
    is written are in non-decreasing order; and when no two timestamps of
    the recording are 2^63 ns or more apart (as when none is negative), the
    assertion on [np.diff] holds. (The difference of two int64 timestamps
    further apart wraps around.) *)
Lemma merged_timestamps_non_decreasing :
  forall argsort cfg events dir,
    (forall a, Np.is_argsort a (argsort a)) ->
    (forall ev, fst (process_oe_events argsort cfg events dir) = Ok ev ->
       StronglySorted Z.le (ev_timestamps_ns ev))
    /\ (narrow_span dir ->
          fst (process_oe_events argsort cfg events dir)
          <> Raise TimestampsNotMonotonic).
Proof.
  intros argsort cfg events dir Hsort. unfold process_oe_events. split.
  - intros ev H.
    apply mbind_ok in H as (p & w1 & Hp & H).
    apply mbind_ok in H as (tc & w2 & Htc & H).
    apply mbind_ok in H as ([ts cs] & w3 & Hs & H).
    apply mbind_ok in H as (a1 & w4 & _ & H).
    apply mbind_ok in H as (a2 & w5 & _ & H).
    simpl in H. inversion H; subst; simpl.
    unfold lift in Hs. inversion Hs as [[Hs' Hw]].
    by apply (sort_and_check_ok argsort Hsort) in Hs' as [? _].
  - intros Hdir H.
    apply mbind_raise in H as [H|(p & w1 & Hp & H)].
    { apply ev02_part_raise in H as [?|?]; discriminate. }
    apply mbind_raise in H as [H|(tc & w2 & Htc & H)].
    { apply marker_part_raise in H as [?|[?|?]]; discriminate. }
    apply mbind_raise in H as [H|(srt & w3 & _ & H)].
    { simpl in H.
      apply (sort_and_check_passes argsort Hsort) in H; [done|].
      by eapply merged_timestamps_no_wrap. }
    apply mbind_raise in H as [H|(a1 & w4 & _ & H)].
    { simpl in H. apply write_names_opt_raise in H. discriminate. }
    apply mbind_raise in H as [H|(a2 & w5 & _ & H)]; [|discriminate].
    simpl in H. destruct (find_marker_source events); [|discriminate].
    apply write_names_opt_raise in H. discriminate.
Qed.

(** the two arrays of the recording with one trigger 5e9 s before and one
    5e9 s after its start, before they are sorted: already in order *)
Lemma wide_span_ev02_part :
  ev02_part Fixtures.wide_dir [Fixtures.ni_daq]
  = (Ok ([-5000000000000000000; 5000000000000000000], [1; 2]), []).
Proof. vm_compute. reflexivity. Qed.

(** C2: with one trigger 5e9 s before and one 5e9 s after the start of the
    recording, the timestamps are -5e18 and 5e18 ns. [np.argsort] leaves
    them where they are, in non-decreasing order; but [np.diff] subtracts
    in int64, the difference wraps to a negative number, and the assertion
    fails on the sorted array: nothing is written. *)
Theorem assertion_fails_on_wide_span :
  Np.take [-5000000000000000000; 5000000000000000000]
    (Np.argsort [-5000000000000000000; 5000000000000000000])
  = Ok [-5000000000000000000; 5000000000000000000]
  /\ StronglySorted Z.le [-5000000000000000000; 5000000000000000000]
  /\ Np.diff_int64 [-5000000000000000000; 5000000000000000000]
     = [-8446744073709551616]
  /\ process_oe_events Np.argsort Fixtures.scenario_config [Fixtures.ni_daq]
       Fixtures.wide_dir
     = (Raise TimestampsNotMonotonic, []).
Proof.
  split; [vm_compute; reflexivity|].
  split; [repeat constructor; lia|].
  split; vm_compute; reflexivity.
Qed.

(** the same whatever [np.argsort] returns: two timestamps in order can
    only be left in place *)
Lemma wide_span_any_argsort argsort :
  (forall a, Np.is_argsort a (argsort a)) ->
  process_oe_events argsort Fixtures.scenario_config [Fixtures.ni_daq]
    Fixtures.wide_dir
  = (Raise TimestampsNotMonotonic, []).
Proof.
  intros Hsort. unfold process_oe_events.
  rewrite wide_span_ev02_part. cbn [mbind].
  unfold marker_part. cbn [find_marker_source Fixtures.ni_daq Fixtures.source
    is_marker source_processor String.eqb Ascii.eqb Bool.eqb lift mbind].
  unfold sort_and_check. cbn [fst snd].
  destruct (Hsort [-5000000000000000000; 5000000000000000000])
    as (Hperm & r & Hr & Hs).
  cbn [length seq] in Hperm. symmetry in Hperm.
  apply Permutation_length_2_inv in Hperm as [Hidx|Hidx];
    rewrite Hidx in *.
  - vm_compute. reflexivity.
  - vm_compute in Hr. inversion Hr; subst r.
    apply StronglySorted_inv in Hs as [_ Hs].
    apply Forall_cons in Hs as [Hs _]. lia.
Qed.

Lemma merged_timestamps_non_decreasing_witness :
  StronglySorted Z.le [1000000; 1500000; 2000000]
  /\ fst (process_oe_events Np.argsort Fixtures.scenario_config
            [Fixtures.ni_daq; Fixtures.network_events] Fixtures.scenario_dir)
     <> Raise TimestampsNotMonotonic.
Proof.
  destruct (merged_timestamps_non_decreasing Np.argsort
              Fixtures.scenario_config
              [Fixtures.ni_daq; Fixtures.network_events]
              Fixtures.scenario_dir argsort_is_argsort) as [Hsorted Hassert].
  split.
  - apply (Hsorted {| ev_timestamps_ns := [1000000; 1500000; 2000000];
                      ev_event_codes := [4; 101; 3]; ev_attrs := ∅ |}).
    vm_compute. reflexivity.
  - apply Hassert, nonneg_narrow_span.
    intros name f Hf. unfold Fixtures.scenario_dir in Hf.
    apply lookup_insert_Some in Hf as [[_ <-]|[_ Hf]].
    { repeat constructor; vm_compute; discriminate. }
    apply lookup_insert_Some in Hf as [[_ <-]|[_ Hf]].
    { repeat constructor; vm_compute; discriminate. }
    by rewrite lookup_empty in Hf.
Defined.










(** *** Names of the codes *)

Lemma write_names_other offset names (attrs attrs' : gmap string Z) n :
  n ∉ map fst names ->
  write_names offset names attrs = Ok attrs' ->
  attrs' !! n = attrs !! n.
Proof.
  revert attrs. induction names as [|[n0 c0] tl IH]; intros attrs Hn H.
  - by inversion H.
  - simpl in H. apply rbind_ok in H as (v & _ & H).
    simpl in Hn. apply not_elem_of_cons in Hn as [Hne Hn].
    rewrite (IH _ Hn H). by rewrite lookup_insert_ne.
Qed.

(** a dictionary has each name once; every name is written with the
    offset added to its code *)
Lemma write_names_lookup offset names (attrs attrs' : gmap string Z) n c :
  NoDup (map fst names) ->
  write_names offset names attrs = Ok attrs' ->
  (n, c) ∈ names ->
  attrs' !! n = Some (c + offset).
Proof.
  revert attrs. induction names as [|[n0 c0] tl IH]; intros attrs Hd H Hin.
  - by apply elem_of_nil in Hin.
  - simpl in H. apply rbind_ok in H as (v & Hv & H).
    unfold Np.int32_of_pyint in Hv.
    destruct (_ && _); [|discriminate]. inversion Hv; subst v. clear Hv.
    simpl in Hd. apply NoDup_cons in Hd as [Hn0 Hd].
    apply elem_of_cons in Hin as [[= -> ->]|Hin].
    + rewrite (write_names_other _ _ _ _ _ Hn0 H).
      by rewrite lookup_insert_eq.
    + by eapply IH.
Qed.

(** C7: the one trigger of the recording is on line 3 and keeps the code 3
    in the stream (no offset for the hardware source), but the name
    "reward" given to line 3 in [ttl_line_names] is written as 103, the
    network-events offset added. *)
Theorem ttl_line_name_shifted :
  exists ev,
    process_oe_events Np.argsort Fixtures.named_config [Fixtures.ni_daq]
      Fixtures.named_dir = (Ok ev, [])
    /\ ev_timestamps_ns ev = [1000000]
    /\ ev_event_codes ev = [3]
    /\ ev_attrs ev !! "reward" = Some 103.
Proof. eexists. split; [vm_compute; reflexivity|]. by vm_compute. Qed.

(** the same for every recording: a name of [ttl_line_names] is written
    with [network_events_offset] added *)
Lemma ttl_line_names_shifted argsort cfg events dir ev names n c :
  find_marker_source events = None ->
  ttl_line_names cfg = Some names -> NoDup (map fst names) ->
  (n, c) ∈ names ->
  fst (process_oe_events argsort cfg events dir) = Ok ev ->
  ev_attrs ev !! n = Some (c + network_events_offset cfg).
Proof.
  intros Hm Hn Hd Hin H. unfold process_oe_events in H.
  apply mbind_ok in H as (p & w1 & _ & H).
  apply mbind_ok in H as (tc & w2 & _ & H).
  apply mbind_ok in H as (srt & w3 & _ & H).
  apply mbind_ok in H as (a1 & w4 & Ha1 & H).
  apply mbind_ok in H as (a2 & w5 & Ha2 & H).
  simpl in H. inversion H; subst ev; simpl. clear H.
  rewrite Hm in Ha2. inversion Ha2; subst a2.
  rewrite Hn in Ha1. inversion Ha1 as [[Ha Hw]].
  by eapply write_names_lookup.
Qed.

End EventsFacts.

(** ** Block numbering *)

Module DhFromOeFacts.

Import DhFromOe.

(** every stream name the map knows belongs to the raw group *)
Lemma map_all_raw nm g :
  OE_PROCESSOR_CONT_GROUP_MAP !! nm = Some g -> g = RAW.
Proof.
  unfold OE_PROCESSOR_CONT_GROUP_MAP. intros H.
  repeat (apply lookup_insert_Some in H as [[_ H]|[_ H]]; [done|]).
  by rewrite lookup_empty in H.
Qed.

(** *** One stream, one block per channel *)

Lemma per_channel_ids cont md start g k names f :
  map cont_group_id
    (cont_blocks (per_channel_loop cont md start g k names f))
  = map cont_group_id (cont_blocks f)
    ++ map (fun i => start + Z.of_nat i) (seq k (length names)).
Proof.
  revert g k f. induction names as [|nm rest IH]; intros g k f; simpl.
  - by rewrite app_nil_r.
  - rewrite IH. simpl. rewrite map_app. simpl. by rewrite <- app_assoc.
Qed.

(** the identifier of a block and the global number of its channel differ
    by the start of the range *)
Lemma per_channel_global cont md start g k names f delta :
  start + Z.of_nat k = delta + g ->
  Forall (fun b => cont_group_id b = delta + GlobalChanNumber (channels b))
    (cont_blocks f) ->
  Forall (fun b => cont_group_id b = delta + GlobalChanNumber (channels b))
    (cont_blocks (per_channel_loop cont md start g k names f)).
Proof.
  revert g k f. induction names as [|nm rest IH]; intros g k f Hk Hf; simpl.
  - done.
  - apply IH; [lia|]. simpl. apply Forall_app. split; [done|].
    repeat constructor. simpl. lia.
Qed.

(** *** The loop over the streams *)

Lemma map_seq_from {A} (f : nat -> A) (n t : nat) :
  map f (seq n t) = map (fun i => f (n + i)%nat) (seq 0 t).
Proof.
  revert n. induction t as [|t IH]; intros n; [done|]. simpl.
  rewrite Nat.add_0_r. f_equal.
  rewrite IH, <- seq_shift, map_map.
  apply map_ext. intros i. f_equal. lia.
Qed.

Lemma seq_shift_map (g : Z) (n t : nat) :
  map (fun i => 1 + g + Z.of_nat i) (seq 0 (n + t))
  = map (fun i => g + 1 + Z.of_nat i) (seq 0 n)
    ++ map (fun i => 1 + (g + Z.of_nat n) + Z.of_nat i) (seq 0 t).
Proof.
  rewrite seq_app, map_app. f_equal.
  - apply map_ext. intros; lia.
  - simpl. rewrite map_seq_from. apply map_ext. intros; lia.
Qed.

Lemma stream_loop_split_ids conts g f :
  Forall well_shaped conts ->
  written_ids (stream_loop true conts g f)
  = map cont_group_id (cont_blocks f)
    ++ map (fun i => 1 + g + Z.of_nat i)
         (seq 0 (total_channels (known_prefix conts))).
Proof.
  intros Hw. revert g f.
  induction Hw as [|cont rest Hc _ IH]; intros g f; simpl.
  - by rewrite app_nil_r.
  - unfold category_of.
    destruct (OE_PROCESSOR_CONT_GROUP_MAP !! stream_name (metadata cont))
      as [cg|] eqn:Hcg; simpl.
    + apply map_all_raw in Hcg as ->. rewrite IH.
      unfold create_cont_group_per_channel. rewrite per_channel_ids.
      rewrite Hc, seq_shift_map. simpl. by rewrite <- app_assoc.
    + by rewrite app_nil_r.
Qed.

Lemma stream_loop_split_global conts g f :
  Forall (fun b => cont_group_id b = 1 + GlobalChanNumber (channels b))
    (cont_blocks f) ->
  Forall (fun b => cont_group_id b = 1 + GlobalChanNumber (channels b))
    (written_blocks (stream_loop true conts g f)).
Proof.
  revert g f. induction conts as [|cont rest IH]; intros g f Hf; simpl.
  - done.
  - destruct (OE_PROCESSOR_CONT_GROUP_MAP !! stream_name (metadata cont))
      as [cg|] eqn:Hcg; simpl; [|done].
    apply map_all_raw in Hcg as ->. apply IH.
    apply per_channel_global; [simpl; lia | done].
Qed.

Lemma specified_ids_from_raw seen conts :
  specified_ids_from seen conts
  = map (fun i => 1 + seen RAW + Z.of_nat i)
      (seq 0 (total_channels (known_prefix conts))).
Proof.
  revert seen. induction conts as [|cont rest IH]; intros seen; simpl.
  - done.
  - unfold category_of.
    destruct (OE_PROCESSOR_CONT_GROUP_MAP !! stream_name (metadata cont))
      as [cg|] eqn:Hcg; simpl; [|done].
    apply map_all_raw in Hcg as ->. rewrite IH. simpl.
    rewrite seq_shift_map. f_equal. apply map_ext. intros; lia.
Qed.

Lemma stream_loop_raised split conts g f :
  raised (stream_loop split conts g f) = None
  \/ exists nm, raised (stream_loop split conts g f)
                = Some (UnknownStreamName nm).
Proof.
  revert g f. induction conts as [|cont rest IH]; intros g f; simpl.
  - by left.
  - destruct (OE_PROCESSOR_CONT_GROUP_MAP !! stream_name (metadata cont));
      simpl; [|by eauto].
    destruct split; apply IH.
Qed.

(** *** The conversion *)

Lemma split_run_ids conts session_name recording_index :
  Forall well_shaped conts ->
  written_ids
    (dh_from_oe_recording {| continuous := Some conts |} session_name
       recording_index true)
  = map (fun i => 1 + Z.of_nat i)
      (seq 0 (total_channels (known_prefix conts))).
Proof.
  intros Hw. unfold dh_from_oe_recording. simpl.
  destruct conts as [|cont rest]; [done|].
  rewrite stream_loop_split_ids by done. simpl.
  apply map_ext. intros; lia.
Qed.

(** when the channels are split into blocks of their own (the default)
    and every sample array has a column for each channel name, the
    identifiers written are [start(category) + ordinal] with the ordinal
    counted within the category, which is the raw one for every stream
    name the map knows; the identifier of a block is the start of the raw
    range plus the global number of its channel *)
Lemma block_ids_when_split :
  forall conts session_name recording_index,
    Forall well_shaped conts ->
    written_ids
      (dh_from_oe_recording {| continuous := Some conts |} session_name
         recording_index true)
    = specified_ids conts
    /\ Forall (fun b => cont_group_id b
                        = fst (CONT_GROUP_RANGES RAW)
                          + GlobalChanNumber (channels b))
         (written_blocks
            (dh_from_oe_recording {| continuous := Some conts |}
               session_name recording_index true))
    /\ Forall (fun cont => category_of cont = Some RAW
                           \/ category_of cont = None) conts.
Proof.
  intros conts session_name recording_index Hw. repeat split.
  - rewrite split_run_ids by done. unfold specified_ids.
    rewrite specified_ids_from_raw. apply map_ext. intros; lia.
  - unfold dh_from_oe_recording. simpl.
    destruct conts as [|cont rest]; [constructor|].
    apply stream_loop_split_global. constructor.
  - apply Forall_forall. intros cont _. unfold category_of.
    destruct (OE_PROCESSOR_CONT_GROUP_MAP !! stream_name (metadata cont))
      as [g|] eqn:Hg; [|by right].
    left. by rewrite (map_all_raw _ _ Hg).
Qed.

Lemma block_ids_when_split_witness :
  written_ids
    (dh_from_oe_recording (Fixtures.recording_of Fixtures.two_streams)
       "session" 0 true)
  = [1; 2]
  /\ specified_ids Fixtures.two_streams = [1; 2].
Proof.
  pose proof (block_ids_when_split Fixtures.two_streams "session" 0
                ltac:(repeat constructor)) as [H _].
  split; [|reflexivity].
  unfold Fixtures.recording_of. rewrite H. reflexivity.
Defined.

(** C4: a recording with two streams of one channel each, converted with
    the streams kept whole. The loop computes the identifier of either
    stream from [global_channel_index], which only the branch that splits
    the channels advances: both streams are written with the identifier 1,
    the second one too, whose channel has the ordinal 1 and so the
    identifier 2. With the channels split the same recording gives the
    blocks 1 and 2. *)
Theorem whole_streams_share_block_id :
  written_ids
    (dh_from_oe_recording (Fixtures.recording_of Fixtures.two_streams)
       "session" 0 false)
  = [1; 1]
  /\ specified_ids Fixtures.two_streams = [1; 2]
  /\ written_ids
       (dh_from_oe_recording (Fixtures.recording_of Fixtures.two_streams)
          "session" 0 true)
     = [1; 2].
Proof. repeat split; vm_compute; reflexivity. Qed.



(** C8: a recording without continuous streams (none at all, or an empty
    collection) ends the conversion before the archive is created,
    whatever the other arguments are; with a stream present neither of
    the two exceptions is raised. *)
Theorem no_continuous_data_is_fatal :
  forall session_name recording_index split,
    dh_from_oe_recording {| continuous := None |} session_name
      recording_index split
    = {| file := None; raised := Some NoContinuousData |}
    /\ dh_from_oe_recording {| continuous := Some [] |} session_name
         recording_index split
       = {| file := None; raised := Some NoContinuousDataUnsupported |}
    /\ (forall cont rest,
          raised (dh_from_oe_recording
                    {| continuous := Some (cont :: rest) |} session_name
                    recording_index split) <> Some NoContinuousData
          /\ raised (dh_from_oe_recording
                       {| continuous := Some (cont :: rest) |} session_name
                       recording_index split)
             <> Some NoContinuousDataUnsupported
          /\ file (dh_from_oe_recording
                     {| continuous := Some (cont :: rest) |} session_name
                     recording_index split) <> None).
Proof.
  intros session_name recording_index split.
  split; [done|]. split; [done|]. intros cont rest.
  unfold dh_from_oe_recording.
  cbn [continuous].
  set (f := {| filename := _; boards := _; cont_blocks := _ |}).
  destruct (stream_loop_raised split (cont :: rest) 0 f) as [H|[nm H]];
    rewrite H; repeat split; try discriminate.
  - clear H. generalize 0 f. generalize (cont :: rest).
    induction l as [|c l IH]; intros g f'; simpl; [done|].
    destruct (OE_PROCESSOR_CONT_GROUP_MAP !! _); [|done].
    destruct split; apply IH.
  - clear H. generalize 0 f. generalize (cont :: rest).
    induction l as [|c l IH]; intros g f'; simpl; [done|].
    destruct (OE_PROCESSOR_CONT_GROUP_MAP !! _); [|done].
    destruct split; apply IH.
Qed.

End DhFromOeFacts.

(** ** Decimation *)

Module DecimationFacts.

Import Decimation.

Section Lengths.

Context {A : Type}.
Variable lowpass : filter_type -> nat -> bool -> nat -> list A -> list A.

(** the filter gives one output sample for each input sample *)
Hypothesis lowpass_length :
  forall ftype order zero_phase factor x,
    length (lowpass ftype order zero_phase factor x) = length x.

Lemma retain_every_length fuel factor (x : list A) :
  (1 <= factor)%nat -> (length x <= fuel)%nat ->
  length (retain_every fuel factor x) = (length x / factor)%nat.
Proof.
  intros Hf.
  assert (forall n, (factor <= n)%nat ->
            S ((n - factor) / factor) = (n / factor)%nat) as Hdiv.
  { intros n Hn.
    replace (n / factor)%nat
      with (((n - factor) + 1 * factor) / factor)%nat
      by (f_equal; lia).
    rewrite Nat.div_add by lia. lia. }
  revert x. induction fuel as [|fuel IH]; intros x Hx.
  - destruct x; [|simpl in Hx; lia]. simpl.
    symmetry. apply Nat.Div0.div_0_l.
  - cbn [retain_every].
    destruct (Nat.leb_spec factor (length x)) as [Hle|Hlt].
    + destruct x as [|s tl]; [simpl in Hle; lia|].
      cbn [length] in *. rewrite IH.
      * rewrite length_skipn. cbn [length]. by apply Hdiv.
      * rewrite length_skipn. cbn [length]. lia.
    + simpl. symmetry. by apply Nat.div_small.
Qed.

Lemma decimate_1d_length (x : list A) factor order ftype zero_phase :
  (1 <= factor)%nat ->
  length (decimate_1d lowpass x factor order ftype zero_phase)
  = (length x / factor)%nat.
Proof.
  intros Hf. unfold decimate_1d.
  rewrite retain_every_length by done. by rewrite lowpass_length.
Qed.

End Lengths.

(** C6: for a factor of at least 1 the decimated signal has
    [floor(length / factor)] samples, with the FIR as with the IIR filter;
    a (samples x channels) array keeps its channels, each decimated along
    the samples. *)
Theorem decimated_length :
  forall (A : Type)
         (lowpass : filter_type -> nat -> bool -> nat -> list A -> list A),
    (forall ftype order zero_phase factor x,
       length (lowpass ftype order zero_phase factor x) = length x) ->
    forall (factor order : nat) (ftype : filter_type) (zero_phase : bool),
      (1 <= factor)%nat ->
      (forall x : list A,
         length (decimate_1d lowpass x factor order ftype zero_phase)
         = (length x / factor)%nat)
      /\ (forall (data : list (list A)) (n : nat),
            Forall (fun column => length column = n) data ->
            length (decimate_np_array lowpass data factor order ftype
                      zero_phase) = length data
            /\ Forall (fun column => length column = (n / factor)%nat)
                 (decimate_np_array lowpass data factor order ftype
                    zero_phase)).
Proof.
  intros A lowpass Hlow factor order ftype zero_phase Hf. split.
  - intros x. by apply decimate_1d_length.
  - intros data n Hn. unfold decimate_np_array. split.
    + by rewrite length_map.
    + apply Forall_fmap. eapply Forall_impl; [exact Hn|].
      intros column Hc. unfold compose. cbv beta in Hc.
      rewrite decimate_1d_length by done. by rewrite Hc.
Qed.

(** ten samples on two channels, factor 3, for both kinds of filter *)
Lemma decimated_length_witness :
  length (decimate_1d (fun _ _ _ _ x => x) (seq 0 10) 3 30 fir true) = 3%nat
  /\ length (decimate_1d (fun _ _ _ _ x => x) (seq 0 10) 3 30 iir true) = 3%nat
  /\ length (decimate_np_array (fun _ _ _ _ x => x) [seq 0 10; seq 10 10]
               3 30 fir true) = 2%nat.
Proof.
  pose proof (decimated_length nat (fun _ _ _ _ x => x)
                (fun _ _ _ _ _ => eq_refl) 3 30) as H.
  split; [|split].
  - apply (proj1 (H fir true ltac:(lia)) (seq 0 10)).
  - apply (proj1 (H iir true ltac:(lia)) (seq 0 10)).
  - apply (proj2 (H fir true ltac:(lia)) [seq 0 10; seq 10 10] 10%nat).
    repeat constructor.
Defined.

End DecimationFacts.

(** ** More on the event sources *)

Module EventsMore.

Import Events EventsFacts Merge.

(** *** Loading one source *)

(** X1: for a source whose folder exists, the processor name alone decides
    what is loaded: "Message Center" gives the messages as they are,
    without any check and without warning; "Network Events" gives a
    full-word event or fails, without warning; every other name is loaded
    as a generic event, and a warning naming the processor is issued
    exactly when the name is not "NI-DAQmx". *)
Theorem loader_dispatch :
  forall (dir : gmap string EventFolder) md f,
    dir !! folder_name md = Some f ->
    (source_processor md = "Message Center"%string ->
       event_from_eventfolder dir md
       = (Ok (IsMessages {| msg_metadata := md; msg_text := text_npy f;
                            msg_sample_numbers := sample_numbers_npy f;
                            msg_timestamps := timestamps_npy f |}), []))
    /\ (source_processor md = "Network Events"%string ->
          snd (event_from_eventfolder dir md) = []
          /\ forall l, fst (event_from_eventfolder dir md) = Ok l ->
               exists w, l = IsFullWordEvent w)
    /\ (source_processor md <> "Message Center"%string ->
        source_processor md <> "Network Events"%string ->
          fst (event_from_eventfolder dir md)
          = (let* e := Event_from_folder f md in Ok (IsEvent e))
          /\ snd (event_from_eventfolder dir md)
             = if String.eqb (source_processor md) "NI-DAQmx" then []
               else [UnsupportedSourceProcessor (source_processor md)]).
Proof.
  intros dir md f Hf. unfold event_from_eventfolder. rewrite Hf.
  split; [|split].
  - intros ->. done.
  - intros ->. simpl. split; [done|]. intros l H.
    apply rbind_ok in H as (e & _ & H).
    apply rbind_ok in H as (w & _ & H).
    inversion H. by eexists.
  - intros Hm Hn.
    apply String.eqb_neq in Hm, Hn. rewrite Hm, Hn.
    by destruct (String.eqb (source_processor md) "NI-DAQmx").
Qed.

Lemma loader_dispatch_witness :
  snd (event_from_eventfolder Fixtures.scenario_dir Fixtures.network_events)
  = [].
Proof.
  apply (proj1 (proj2 (loader_dispatch Fixtures.scenario_dir
                         Fixtures.network_events
                         (Fixtures.folder [1] [Fixtures.decimal 15 10000]
                            [1] [45])
                         ltac:(vm_compute; reflexivity)))).
  reflexivity.
Defined.

(** an absent folder ends the loading before anything else is looked at *)
Lemma load_missing_folder (dir : gmap string EventFolder) md :
  dir !! folder_name md = None ->
  event_from_eventfolder dir md = (Raise EventsFolderMissing, []).
Proof. intros H. unfold event_from_eventfolder. by rewrite H. Qed.

Lemma ev02_part_loaded (dir : gmap string EventFolder) events md f :
  find_ev02_source events = Some md -> dir !! folder_name md = Some f ->
  ev02_part dir events
  = (let* e := Event_from_folder f md in
     Ok (map Np.seconds_to_ns (timestamps e), states e), []).
Proof.
  intros Hmd Hf. unfold ev02_part. rewrite Hmd.
  rewrite (load_ev02 _ _ (find_ev02_is_ev02 _ _ Hmd)), Hf.
  by destruct (Event_from_folder f md).
Qed.

(** X2: a declared source without its folder is fatal. When the folder of
    the hardware trigger source is absent, [process_oe_events] raises the
    folder assertion and writes nothing; so it does when the folder of the
    marker source is absent and the hardware source is absent or loads. *)
Theorem missing_folder_is_fatal :
  forall argsort cfg events (dir : gmap string EventFolder) md,
    dir !! folder_name md = None ->
    (find_ev02_source events = Some md ->
       process_oe_events argsort cfg events dir
       = (Raise EventsFolderMissing, []))
    /\ (find_marker_source events = Some md ->
          (find_ev02_source events = None
           \/ exists pmd pf e,
                find_ev02_source events = Some pmd
                /\ dir !! folder_name pmd = Some pf
                /\ Event_from_folder pf pmd = Ok e) ->
          process_oe_events argsort cfg events dir
          = (Raise EventsFolderMissing, [])).
Proof.
  intros argsort cfg events dir md Hnone. split.
  - intros Hmd. unfold process_oe_events, ev02_part. rewrite Hmd.
    by rewrite load_missing_folder.
  - intros Hmd Hp. unfold process_oe_events.
    assert (exists p, ev02_part dir events = (Ok p, [])) as [p ->].
    { destruct Hp as [Hp|(pmd & pf & e & Hpmd & Hpf & He)].
      - unfold ev02_part. rewrite Hp. by eexists.
      - rewrite (ev02_part_loaded _ _ _ _ Hpmd Hpf), He. by eexists. }
    cbn [mbind]. unfold marker_part. rewrite Hmd.
    by rewrite load_missing_folder.
Qed.

Lemma missing_folder_is_fatal_witness :
  process_oe_events Np.argsort Fixtures.scenario_config
    [Fixtures.ni_daq_later; Fixtures.network_events] Fixtures.scenario_dir
  = (Raise EventsFolderMissing, []).
Proof.
  apply (proj1 (missing_folder_is_fatal Np.argsort Fixtures.scenario_config
                  [Fixtures.ni_daq_later; Fixtures.network_events]
                  Fixtures.scenario_dir Fixtures.ni_daq_later
                  ltac:(vm_compute; reflexivity))).
  reflexivity.
Defined.

(** *** The samples kept by the normalisation *)

Lemma where_from_bounds i mask :
  Forall (fun j => (i <= j < i + length mask)%nat) (Np.where_from i mask).
Proof.
  revert i. induction mask as [|b tl IH]; intros i; simpl; [constructor|].
  assert (Forall (fun j => (i <= j < i + S (length tl))%nat)
            (Np.where_from (S i) tl)) as H.
  { eapply Forall_impl; [apply IH|]. intros j Hj. simpl in Hj. lia. }
  destruct b; [constructor; [lia | done] | done].
Qed.

Lemma where_from_sorted i mask :
  StronglySorted lt (Np.where_from i mask).
Proof.
  revert i. induction mask as [|b tl IH]; intros i; simpl; [constructor|].
  destruct b; [|apply IH]. constructor; [apply IH|].
  eapply Forall_impl; [apply where_from_bounds|]. intros j Hj. simpl in Hj. lia.
Qed.

Lemma where_from_length i mask :
  (length (Np.where_from i mask) <= length mask)%nat.
Proof.
  revert i. induction mask as [|b tl IH]; intros i; simpl; [lia|].
  specialize (IH (S i)). destruct b; simpl; lia.
Qed.

Lemma adjacent_length {A B} (f : A -> A -> B) x l :
  length (Np.adjacent f (x :: l)) = length l.
Proof.
  revert x. induction l as [|y l IH]; intros x; [done|].
  rewrite adjacent_cons. cbn [length]. by rewrite IH.
Qed.

Lemma diff_prepend_nan_length words :
  length (map Np.ne_zero (Np.diff_prepend_nan words)) = length words.
Proof.
  unfold Np.diff_prepend_nan.
  by rewrite length_map, adjacent_length, length_map.
Qed.

Lemma unique_indices_in_range words :
  Forall (fun i => (i < length words)%nat) (unique_indices words).
Proof.
  unfold unique_indices, Np.where_.
  eapply Forall_impl; [apply where_from_bounds|]. intros j Hj.
  cbv beta in Hj. rewrite diff_prepend_nan_length in Hj. lia.
Qed.

Lemma unique_indices_sorted words : StronglySorted lt (unique_indices words).
Proof. apply where_from_sorted. Qed.

Lemma unique_indices_length words :
  (length (unique_indices words) <= length words)%nat.
Proof.
  unfold unique_indices, Np.where_.
  etrans; [apply where_from_length|]. by rewrite diff_prepend_nan_length.
Qed.

(** gathering at increasing positions gives a subsequence *)
Lemma take_sorted_sublist {A} (a : list A) idx r k :
  StronglySorted lt idx -> Forall (fun i => (k <= i)%nat) idx ->
  Np.take a idx = Ok r -> sublist r (drop k a).
Proof.
  intros Hs. revert r k. induction Hs as [|i tl Hs IH Hi]; intros r k Hk H.
  - inversion H. apply sublist_nil_l.
  - apply take_ok_inv in H as (x & r' & Hx & Hr' & ->).
    apply Forall_cons in Hk as [Hki _].
    assert (sublist (x :: r') (drop i a)) as Hsub.
    { rewrite (drop_S _ _ _ Hx). apply sublist_skip.
      apply IH; [|done]. eapply Forall_impl; [exact Hi|]. intros j Hj.
      simpl in Hj. lia. }
    etrans; [exact Hsub|].
    replace i with (k + (i - k))%nat by lia.
    rewrite <- drop_drop. apply sublist_drop.
Qed.

(** X3: the normalisation never fails on an event that its constructor
    accepted, and what it returns has arrays of one length again: as many
    samples as positions kept, at most as many as before, and at least one
    when there was one. *)
Theorem normalisation_keeps_lengths :
  forall md (fw : list Z) (ts : list spec_float) (st sn : list Z) e,
    Event_init md fw ts st sn = Ok e ->
    Event_len e = Ok (length fw)
    /\ exists w,
         remove_repeating_simultaneous_words e = Ok w
         /\ fw_metadata w = md
         /\ FullWordEvent_len w = Ok (length (unique_indices fw))
         /\ (length (unique_indices fw) <= length fw)%nat
         /\ (fw <> [] -> (1 <= length (unique_indices fw))%nat).
Proof.
  intros md fw ts st sn e He. unfold Event_init in He.
  destruct (same_length4 fw ts st sn) eqn:Hl; [|discriminate].
  inversion He; subst e. clear He.
  split.
  { unfold Event_len. simpl. by rewrite Hl. }
  apply same_length4_spec in Hl as (H1 & H2 & H3).
  pose proof (unique_indices_in_range fw) as Hr.
  destruct (take_in_range fw (unique_indices fw) Hr) as [rw Hrw].
  destruct (take_in_range ts (unique_indices fw)) as [rt Hrt].
  { by rewrite <- H1. }
  destruct (take_in_range sn (unique_indices fw)) as [rs Hrs].
  { by rewrite <- H3, <- H2, <- H1. }
  unfold remove_repeating_simultaneous_words. simpl.
  rewrite Hrw, Hrt, Hrs. simpl. eexists. split; [reflexivity|]. simpl.
  apply take_length in Hrw, Hrt, Hrs.
  split; [done|]. split; [|split].
  - unfold FullWordEvent_len, same_length3. simpl.
    rewrite Hrw, Hrt, Hrs, !Nat.eqb_refl. done.
  - apply unique_indices_length.
  - intros Hne. destruct fw as [|w0 ws]; [done|].
    destruct (first_sample_kept w0 ws) as [rest ->]. simpl. lia.
Qed.

Lemma normalisation_keeps_lengths_witness :
  Event_len
    {| metadata := Fixtures.network_events; full_words := [5; 5; 7];
       timestamps := [Fixtures.decimal 1 1000; Fixtures.decimal 2 1000;
                      Fixtures.decimal 3 1000];
       states := [1; 1; 2]; sample_numbers := [30; 60; 90] |}
  = Ok 3%nat.
Proof.
  apply (proj1 (normalisation_keeps_lengths Fixtures.network_events
                  [5; 5; 7]
                  [Fixtures.decimal 1 1000; Fixtures.decimal 2 1000;
                   Fixtures.decimal 3 1000]
                  [1; 1; 2] [30; 60; 90] _ eq_refl)).
Defined.

(** X4: the samples that are kept stay whole and in order: the rows (word,
    timestamp, sample number) of the result are a subsequence of the rows
    of the event, and they begin with its first row. *)
Theorem normalisation_keeps_order :
  forall e w,
    remove_repeating_simultaneous_words e = Ok w ->
    sublist
      (zip (fw_full_words w) (zip (fw_timestamps w) (fw_sample_numbers w)))
      (zip (full_words e) (zip (timestamps e) (sample_numbers e)))
    /\ head (fw_full_words w) = head (full_words e)
    /\ head (fw_timestamps w)
       = (if full_words e is [] then None else head (timestamps e))
    /\ head (fw_sample_numbers w)
       = (if full_words e is [] then None else head (sample_numbers e)).
Proof.
  intros e w H. apply remove_repeating_ok in H as (Hw & Ht & Hs).
  split.
  - pose proof (take_zip _ _ _ _ _ Ht Hs) as Hts.
    pose proof (take_zip _ _ _ _ _ Hw Hts) as Hall.
    rewrite <- (drop_0 (zip (full_words e) _)).
    eapply take_sorted_sublist; [apply unique_indices_sorted | | exact Hall].
    apply Forall_forall. intros; lia.
  - destruct (full_words e) as [|w0 ws] eqn:Hfw.
    + inversion Hw. rewrite <- H0 in *. clear Hw.
      change (unique_indices []) with (@nil nat) in Ht, Hs.
      inversion Ht. inversion Hs. done.
    + destruct (first_sample_kept w0 ws) as [rest Hrest].
      rewrite Hrest in Hw, Ht, Hs.
      apply take_ok_inv in Hw as (x & r1 & Hx & _ & ->).
      apply take_ok_inv in Ht as (y & r2 & Hy & _ & ->).
      apply take_ok_inv in Hs as (z & r3 & Hz & _ & ->).
      simpl in Hx. inversion Hx; subst x. simpl.
      rewrite <- head_lookup in Hy. rewrite <- head_lookup in Hz.
      by rewrite Hy, Hz.
Qed.

Lemma normalisation_keeps_order_witness :
  head (fw_full_words
          {| fw_metadata := Fixtures.network_events;
             fw_full_words := [9007199254740992];
             fw_timestamps := [Fixtures.decimal 1 1000];
             fw_sample_numbers := [30] |})
  = head (full_words Fixtures.high_words).
Proof.
  apply (proj1 (proj2 (normalisation_keeps_order Fixtures.high_words _
                         ltac:(vm_compute; reflexivity)))).
Defined.

(** *** Normalising twice *)

(** the elements of [words] where the mask is set *)
Lemma take_where {A} (pre words : list A) (mask : list bool) :
  length mask = length words ->
  Np.take (pre ++ words) (Np.where_from (length pre) mask)
  = Ok (map fst (filter (fun p => snd p = true) (zip words mask))).
Proof.
  revert pre mask. induction words as [|w ws IH]; intros pre mask Hl.
  - destruct mask; [done|discriminate].
  - destruct mask as [|b mask]; [discriminate|]. simpl in Hl.
    assert (Np.take (pre ++ w :: ws) (Np.where_from (S (length pre)) mask)
            = Ok (map fst (filter (fun p => snd p = true) (zip ws mask))))
      as Hrest.
    { specialize (IH (pre ++ [w]) mask ltac:(lia)).
      rewrite <- app_assoc, length_app in IH. simpl in IH.
      by rewrite Nat.add_1_r in IH. }
    change (zip (w :: ws) (b :: mask)) with ((w, b) :: zip ws mask).
    cbn [Np.where_from]. destruct b.
    + rewrite filter_cons_True by done. cbn [map fst Np.take].
      rewrite lookup_app_r by lia. rewrite Nat.sub_diag. cbn [lookup list_lookup].
      by rewrite Hrest.
    + rewrite filter_cons_False by (simpl; discriminate). exact Hrest.
Qed.

Lemma changed_from_length previous words :
  length (changed_from previous words) = length words.
Proof.
  revert previous. induction words as [|w ws IH]; intros previous; [done|].
  simpl. by rewrite IH.
Qed.

Lemma select_changed previous words :
  map fst (filter (fun p => snd p = true)
             (zip words (changed_from previous words)))
  = drop_repeats previous words.
Proof.
  revert previous. induction words as [|w ws IH]; intros previous; [done|].
  cbn [changed_from drop_repeats].
  change (zip (w :: ws) (?b :: ?m)) with ((w, b) :: zip ws m).
  destruct previous as [p|].
  - destruct (w =? p); cbn [negb].
    + rewrite filter_cons_False by (simpl; discriminate). apply IH.
    + rewrite filter_cons_True by done. cbn [map fst]. by rewrite IH.
  - rewrite filter_cons_True by done. cbn [map fst]. by rewrite IH.
Qed.

(** for words below 2^53 the words kept are the words without repeats *)
Lemma kept_words_small (words : list Z) :
  Forall (fun w => 0 <= w < 2 ^ 53) words ->
  Np.take words (unique_indices words) = Ok (drop_repeats None words).
Proof.
  intros Hs. rewrite (unique_indices_small _ Hs).
  unfold changed_indices, Np.where_.
  rewrite <- select_changed.
  apply (take_where [] words). apply changed_from_length.
Qed.

Lemma changed_from_drop_repeats p words :
  changed_from (Some p) (drop_repeats (Some p) words)
  = replicate (length (drop_repeats (Some p) words)) true.
Proof.
  revert p. induction words as [|w ws IH]; intros p; [done|].
  simpl. destruct (Z.eqb_spec w p) as [->|Hne].
  - apply IH.
  - simpl. rewrite IH. by apply Z.eqb_neq in Hne as ->.
Qed.

Lemma where_from_all i n :
  Np.where_from i (replicate n true) = seq i n.
Proof.
  revert i. induction n as [|n IH]; intros i; [done|].
  simpl. by rewrite IH.
Qed.

Lemma drop_repeats_small previous words :
  Forall (fun w => 0 <= w < 2 ^ 53) words ->
  Forall (fun w => 0 <= w < 2 ^ 53) (drop_repeats previous words).
Proof.
  intros H. revert previous.
  induction H as [|w ws Hw _ IH]; intros previous; [constructor|].
  simpl. destruct previous as [p|]; [destruct (w =? p)|];
    try constructor; auto.
Qed.

(** X5: for words below 2^53 the normalisation leaves no word that equals
    the word before it, so that normalising its result again keeps every
    sample. *)
Theorem normalisation_idempotent :
  forall e w,
    Forall (fun x => 0 <= x < 2 ^ 53) (full_words e) ->
    remove_repeating_simultaneous_words e = Ok w ->
    fw_full_words w = drop_repeats None (full_words e)
    /\ unique_indices (fw_full_words w) = seq 0 (length (fw_full_words w)).
Proof.
  intros e w Hs H. apply remove_repeating_ok in H as (Hw & _ & _).
  rewrite (kept_words_small _ Hs) in Hw. inversion Hw as [Hk].
  split; [done|].
  rewrite unique_indices_small by by apply drop_repeats_small.
  unfold changed_indices, Np.where_.
  destruct (full_words e) as [|w0 ws]; [done|].
  cbn [drop_repeats changed_from length].
  rewrite changed_from_drop_repeats. simpl. by rewrite where_from_all.
Qed.

Lemma normalisation_idempotent_witness :
  unique_indices [5; 7; 2] = [0; 1; 2]%nat.
Proof.
  apply (proj2 (normalisation_idempotent
                  {| metadata := Fixtures.network_events;
                     full_words := [5; 5; 5; 7; 7; 2];
                     timestamps := replicate 6 (Fixtures.decimal 1 1000);
                     states := [1; 1; 1; 2; 2; -1];
                     sample_numbers := [1; 2; 3; 4; 5; 6] |}
                  {| fw_metadata := Fixtures.network_events;
                     fw_full_words := [5; 7; 2];
                     fw_timestamps := replicate 3 (Fixtures.decimal 1 1000);
                     fw_sample_numbers := [1; 4; 6] |}
                  ltac:(repeat constructor; lia)
                  ltac:(vm_compute; reflexivity))).
Defined.

(** *** Which source is chosen *)

Lemma find_ev02_none events :
  find_ev02_source events = None <-> Forall (fun x => is_ev02 x = false) events.
Proof.
  induction events as [|x tl IH]; simpl.
  - split; [constructor | done].
  - destruct (is_ev02 x) eqn:Hx.
    + split; [discriminate|]. intros H. apply Forall_cons in H as [H _].
      congruence.
    + rewrite IH. split; [by constructor | by intros [_ ?]%Forall_cons].
Qed.

Lemma find_marker_none events :
  find_marker_source events = None
  <-> Forall (fun x => is_marker x = false) events.
Proof.
  induction events as [|x tl IH]; simpl.
  - split; [constructor | done].
  - destruct (is_marker x) eqn:Hx.
    + split; [discriminate|]. intros H. apply Forall_cons in H as [H _].
      congruence.
    + rewrite IH. split; [by constructor | by intros [_ ?]%Forall_cons].
Qed.

Lemma find_ev02_elem events e :
  find_ev02_source events = Some e -> e ∈ events.
Proof.
  induction events as [|x tl IH]; [done|]. simpl.
  destruct (is_ev02 x); [intros [= ->]; left | intros H; right; auto].
Qed.

Lemma find_marker_elem events e :
  find_marker_source events = Some e -> e ∈ events.
Proof.
  induction events as [|x tl IH]; [done|]. simpl.
  destruct (is_marker x); [intros [= ->]; left | intros H; right; auto].
Qed.

(** X6: a source is found exactly when one is declared: each search gives
    nothing if and only if no declared source matches, and what it gives is
    a declared source with the processor (and, for the hardware triggers,
    the stream) it looks for. The marker source is taken whatever its
    stream is. *)
Theorem sources_found_when_declared :
  forall events,
    (find_ev02_source events = None
     <-> forall e, e ∈ events ->
           ~ (source_processor e = "NI-DAQmx"%string
              /\ stream_name e = "PXIe-6341"%string))
    /\ (find_marker_source events = None
        <-> forall e, e ∈ events ->
              source_processor e <> "Network Events"%string)
    /\ (forall e, find_ev02_source events = Some e ->
           e ∈ events /\ source_processor e = "NI-DAQmx"%string
           /\ stream_name e = "PXIe-6341"%string)
    /\ (forall e, find_marker_source events = Some e ->
           e ∈ events /\ source_processor e = "Network Events"%string).
Proof.
  intros events. split; [|split; [|split]].
  - rewrite find_ev02_none, Forall_forall.
    apply forall_proper. intros e. apply forall_proper. intros _.
    unfold is_ev02.
    destruct (String.eqb_spec (source_processor e) "NI-DAQmx");
      destruct (String.eqb_spec (stream_name e) "PXIe-6341"); simpl;
      split; try tauto; try discriminate.
  - rewrite find_marker_none, Forall_forall.
    apply forall_proper. intros e. apply forall_proper. intros _.
    unfold is_marker. by rewrite <- not_true_iff_false, String.eqb_eq.
  - intros e He. split; [by eapply find_ev02_elem|].
    apply find_ev02_is_ev02 in He. unfold is_ev02 in He.
    apply andb_true_iff in He as [H1 H2].
    by apply String.eqb_eq in H1, H2.
  - intros e He. split; [by eapply find_marker_elem|].
    apply find_marker_is_marker in He. by apply String.eqb_eq in He.
Qed.

(** *** What the merged stream holds *)





Lemma argsort_nil argsort :
  (forall a, Np.is_argsort a (argsort a)) -> argsort [] = [].
Proof.
  intros H. destruct (H []) as [Hp _]. by apply Permutation_nil_r in Hp.
Qed.

(** X8: a recording without any of the two sources is not an error: an
    empty trigger table is written, with the names of the trigger lines
    as its only attributes. *)
Theorem no_sources_empty_stream :
  forall argsort cfg events (dir : gmap string EventFolder),
    (forall a, Np.is_argsort a (argsort a)) ->
    find_ev02_source events = None -> find_marker_source events = None ->
    process_oe_events argsort cfg events dir
    = (match write_names_opt (network_events_offset cfg)
               (ttl_line_names cfg) ∅ with
       | Ok attrs => Ok {| ev_timestamps_ns := []; ev_event_codes := [];
                           ev_attrs := attrs |}
       | Raise e => Raise e
       end, []).
Proof.
  intros argsort cfg events dir Hsort He Hm.
  unfold process_oe_events, ev02_part, marker_part, sort_and_check.
  rewrite He, Hm. simpl. rewrite (argsort_nil _ Hsort). simpl.
  by destruct (write_names_opt _ _ _).
Qed.

Lemma no_sources_empty_stream_witness :
  process_oe_events Np.argsort Fixtures.scenario_config [] Fixtures.scenario_dir
  = (Ok {| ev_timestamps_ns := []; ev_event_codes := []; ev_attrs := ∅ |}, []).
Proof.
  apply (no_sources_empty_stream Np.argsort Fixtures.scenario_config []
           Fixtures.scenario_dir argsort_is_argsort eq_refl eq_refl).
Defined.

(** *** The names written with the stream *)

Lemma write_names_map offset names (attrs attrs' : gmap string Z) :
  NoDup (map fst names) ->
  write_names offset names attrs = Ok attrs' ->
  attrs' = ((fun c => c + offset) <$> list_to_map names) ∪ attrs.
Proof.
  revert attrs. induction names as [|[n c] tl IH]; intros attrs Hd H.
  - inversion H. simpl. by rewrite fmap_empty, (left_id_L ∅ (∪)).
  - simpl in H. apply rbind_ok in H as (v & Hv & H).
    unfold Np.int32_of_pyint in Hv.
    destruct (_ && _); [|discriminate]. inversion Hv; subst v. clear Hv.
    simpl in Hd. apply NoDup_cons in Hd as [Hn Hd].
    rewrite (IH _ Hd H). simpl. rewrite fmap_insert.
    rewrite <- insert_union_l. symmetry. apply insert_union_r.
    rewrite lookup_fmap. apply fmap_None.
    by apply not_elem_of_list_to_map_1.
Qed.

Lemma write_names_opt_map offset names (attrs attrs' : gmap string Z) :
  unique_names names ->
  write_names_opt offset names attrs = Ok attrs' ->
  attrs' = ((fun c => c + offset) <$> names_of names) ∪ attrs.
Proof.
  destruct names as [l|]; simpl.
  - apply write_names_map.
  - intros _ [= ->]. by rewrite fmap_empty, (left_id_L ∅ (∪)).
Qed.

(** X9: the attributes of the trigger table are the two name maps with the
    network-events offset added to every code; the names of the network
    events are there only when a marker source is declared, and where a
    name is in both maps it stands for the network event. *)
Theorem names_written :
  forall argsort cfg events (dir : gmap string EventFolder) ev,
    unique_names (ttl_line_names cfg) ->
    unique_names (network_events_code_name_map cfg) ->
    fst (process_oe_events argsort cfg events dir) = Ok ev ->
    ev_attrs ev
    = (fun c => c + network_events_offset cfg)
        <$> ((if find_marker_source events is Some _
              then names_of (network_events_code_name_map cfg) else ∅)
             ∪ names_of (ttl_line_names cfg)).
Proof.
  intros argsort cfg events dir ev Ht Hn H. unfold process_oe_events in H.
  apply mbind_ok in H as (p & w1 & _ & H).
  apply mbind_ok in H as (tc & w2 & _ & H).
  apply mbind_ok in H as (srt & w3 & _ & H).
  apply mbind_ok in H as (a1 & w4 & Ha1 & H).
  apply mbind_ok in H as (a2 & w5 & Ha2 & H).
  simpl in H. inversion H; subst ev; simpl. clear H.
  inversion Ha1 as [[Ha1' Hw1]]. inversion Ha2 as [[Ha2' Hw2]].
  apply write_names_opt_map in Ha1'; [|done].
  rewrite (right_id_L ∅ (∪)) in Ha1'. subst a1.
  rewrite map_fmap_union.
  destruct (find_marker_source events).
  - by apply write_names_opt_map in Ha2'.
  - inversion Ha2'. by rewrite fmap_empty, (left_id_L ∅ (∪)).
Qed.

Lemma names_written_witness :
  ev_attrs {| ev_timestamps_ns := [1000000]; ev_event_codes := [3];
              ev_attrs := {[ "reward"%string := 103 ]} |}
  = (fun c => c + network_events_offset Fixtures.named_config)
      <$> ((if find_marker_source [Fixtures.ni_daq] is Some _
            then names_of (network_events_code_name_map Fixtures.named_config)
            else ∅)
           ∪ names_of (ttl_line_names Fixtures.named_config)).
Proof.
  apply (names_written Np.argsort Fixtures.named_config [Fixtures.ni_daq]
           Fixtures.named_dir).
  - repeat constructor. by intros ?%elem_of_nil.
  - exact I.
  - vm_compute. reflexivity.
Defined.

(** without a marker source the names of the network events are not
    looked at: the run is the same as with no such names configured *)
Lemma network_names_need_marker :
  forall argsort cfg events (dir : gmap string EventFolder),
    find_marker_source events = None ->
    process_oe_events argsort cfg events dir
    = process_oe_events argsort (without_network_names cfg) events dir.
Proof.
  intros argsort cfg events dir Hm.
  unfold process_oe_events, without_network_names. simpl. by rewrite Hm.
Qed.

(** *** The exceptions of a run *)

Lemma remove_repeating_total f md e :
  Event_from_folder f md = Ok e ->
  exists w, remove_repeating_simultaneous_words e = Ok w.
Proof.
  intros He.
  apply Event_from_folder_ok in He as (_ & _ & _ & _ & _ & _ & H1 & H2).
  pose proof (unique_indices_in_range (full_words e)) as Hr.
  destruct (take_in_range (full_words e) _ Hr) as [rw Hrw].
  destruct (take_in_range (timestamps e) (unique_indices (full_words e)))
    as [rt Hrt]; [by rewrite <- H1|].
  destruct (take_in_range (sample_numbers e)
              (unique_indices (full_words e))) as [rs Hrs].
  { by rewrite <- H2, <- H1. }
  unfold remove_repeating_simultaneous_words.
  rewrite Hrw, Hrt, Hrs. simpl. by eexists.
Qed.

Lemma marker_part_raise_load dir events offset acc e :
  fst (marker_part dir events offset acc) = Raise e ->
  e = EventsFolderMissing \/ e = LengthMismatch.
Proof.
  unfold marker_part.
  destruct (find_marker_source events) as [md|] eqn:Hmd; [|discriminate].
  rewrite (load_marker _ _ (find_marker_is_marker _ _ Hmd)).
  destruct (dir !! folder_name md) as [f|]; [|intros [= <-]; by left].
  destruct (Event_from_folder f md) as [ev|e'] eqn:He; simpl.
  - destruct (remove_repeating_total _ _ _ He) as [w ->]. discriminate.
  - intros [= <-]. right. by eapply Event_from_folder_raise.
Qed.

Lemma sort_and_check_raise argsort tc e :
  (forall a, Np.is_argsort a (argsort a)) ->
  length (fst tc) = length (snd tc) ->
  sort_and_check argsort tc = Raise e -> e = TimestampsNotMonotonic.
Proof.
  intros Hsort Hl H. unfold sort_and_check in H.
  destruct (Hsort (fst tc)) as (_ & r & Hts & _).
  destruct (take_in_range (snd tc) (argsort (fst tc))) as [cs Hcs].
  { rewrite <- Hl. by apply argsort_in_range. }
  rewrite Hts, Hcs in H. simpl in H.
  destruct (forallb _ _); [discriminate|]. by inversion H.
Qed.

(** X15: the exceptions that can end [process_oe_events] are the missing
    folder of a declared source, arrays of different lengths in a source,
    the assertion on the order of the timestamps, and a name whose code
    does not fit int32. The two [isinstance] assertions never fail, and no
    index is ever out of bounds. *)
Theorem exceptions_of_a_run :
  forall argsort cfg events (dir : gmap string EventFolder) e,
    (forall a, Np.is_argsort a (argsort a)) ->
    fst (process_oe_events argsort cfg events dir) = Raise e ->
    e = EventsFolderMissing \/ e = LengthMismatch
    \/ e = TimestampsNotMonotonic \/ e = OverflowError.
Proof.
  intros argsort cfg events dir e Hsort H. unfold process_oe_events in H.
  apply mbind_raise in H as [H|(p & w1 & Hp & H)].
  { apply ev02_part_raise in H. tauto. }
  apply mbind_raise in H as [H|(tc & w2 & Htc & H)].
  { apply marker_part_raise_load in H. tauto. }
  apply mbind_raise in H as [H|(srt & w3 & _ & H)].
  { simpl in H. apply (sort_and_check_raise _ _ _ Hsort) in H; [tauto|].
    by eapply merged_lengths. }
  apply mbind_raise in H as [H|(a1 & w4 & _ & H)].
  { simpl in H. apply write_names_opt_raise in H. tauto. }
  apply mbind_raise in H as [H|(a2 & w5 & _ & H)]; [|discriminate].
  simpl in H. destruct (find_marker_source events); [|discriminate].
  apply write_names_opt_raise in H. tauto.
Qed.

Lemma exceptions_of_a_run_witness :
  TimestampsNotMonotonic = EventsFolderMissing
  \/ TimestampsNotMonotonic = LengthMismatch
  \/ TimestampsNotMonotonic = TimestampsNotMonotonic
  \/ TimestampsNotMonotonic = OverflowError.
Proof.
  apply (exceptions_of_a_run Np.argsort Fixtures.scenario_config
           [Fixtures.ni_daq] Fixtures.wide_dir TimestampsNotMonotonic
           argsort_is_argsort).
  vm_compute. reflexivity.
Defined.

(** X16: a declared source whose arrays differ in length is fatal: the
    constructor of [Event] refuses it, for the hardware trigger source and,
    when that one is absent or loads, for the marker source too (whose
    states count although they are dropped afterwards). *)
Theorem length_mismatch_is_fatal :
  forall argsort cfg events (dir : gmap string EventFolder) md f,
    dir !! folder_name md = Some f ->
    ~ (length (full_words_npy f) = length (timestamps_npy f)
       /\ length (timestamps_npy f) = length (states_npy f)
       /\ length (states_npy f) = length (sample_numbers_npy f)) ->
    (find_ev02_source events = Some md ->
       process_oe_events argsort cfg events dir = (Raise LengthMismatch, []))
    /\ (find_marker_source events = Some md ->
          find_ev02_source events = None ->
          process_oe_events argsort cfg events dir
          = (Raise LengthMismatch, [])).
Proof.
  intros argsort cfg events dir md f Hf Hl.
  assert (Event_from_folder f md = Raise LengthMismatch) as He.
  { unfold Event_from_folder, Event_init.
    destruct (same_length4 _ _ _ _) eqn:Hs; [|done].
    by apply same_length4_spec in Hs. }
  split.
  - intros Hmd. unfold process_oe_events.
    by rewrite (ev02_part_loaded _ _ _ _ Hmd Hf), He.
  - intros Hmd Hnone. unfold process_oe_events, ev02_part. rewrite Hnone.
    cbn [mbind lift]. unfold marker_part. rewrite Hmd.
    rewrite (load_marker _ _ (find_marker_is_marker _ _ Hmd)), Hf, He.
    done.
Qed.

Lemma length_mismatch_is_fatal_witness :
  process_oe_events Np.argsort Fixtures.scenario_config [Fixtures.ni_daq]
    (<[folder_name Fixtures.ni_daq :=
         Fixtures.folder [0; 0] [Fixtures.decimal 1 1000] [3; 4] [30; 60]]> ∅)
  = (Raise LengthMismatch, []).
Proof.
  apply (proj1 (length_mismatch_is_fatal Np.argsort Fixtures.scenario_config
                  [Fixtures.ni_daq]
                  (<[folder_name Fixtures.ni_daq :=
                       Fixtures.folder [0; 0] [Fixtures.decimal 1 1000]
                         [3; 4] [30; 60]]> ∅)
                  Fixtures.ni_daq
                  (Fixtures.folder [0; 0] [Fixtures.decimal 1 1000] [3; 4]
                     [30; 60])
                  (lookup_insert_eq _ _ _)
                  ltac:(simpl; lia))).
  reflexivity.
Defined.

End EventsMore.

(** ** Several sources for one role *)

Module RolesFacts.

Import Events EventsFacts Merge EventsMore Roles.








End RolesFacts.

(** ** More on the conversion of the continuous streams *)

Module DhFromOeMore.

Import DhFromOe DhFromOeFacts Blocks.

(** *** Streams of unknown name *)









(** *** Streams kept whole *)



(** *** One block per channel *)




Lemma column_slice_lookup (cols : list (list Z)) j col :
  cols !! j = Some col -> column_slice cols j = [col].
Proof.
  intros H. unfold column_slice.
  change (skipn j cols) with (drop j cols).
  rewrite (drop_S _ _ _ H). by destruct (drop (S j) cols).
Qed.







(** X13: with one block per channel and sample arrays that have a column
    for each channel name, no two blocks get the same identifier. *)
Theorem block_ids_distinct :
  forall conts session_name recording_index,
    Forall well_shaped conts ->
    NoDup (written_ids
             (dh_from_oe_recording {| continuous := Some conts |}
                session_name recording_index true)).
Proof.
  intros conts session_name recording_index Hw.
  rewrite split_run_ids by done.
  assert (Inj eq eq (fun i : nat => 1 + Z.of_nat i)) as Hinj.
  { intros i j Hij. lia. }
  apply (NoDup_fmap_2 _), NoDup_seq.
Qed.

Lemma block_ids_distinct_witness :
  NoDup (written_ids
           (dh_from_oe_recording
              {| continuous := Some Fixtures.two_streams |} "session" 0 true)).
Proof.
  apply (block_ids_distinct Fixtures.two_streams "session" 0).
  repeat constructor.
Defined.

(** *** The table of the ranges *)

(** X14: the ranges of two different groups have no identifier in common;
    each range begins at the value of its group in the enumeration and is
    not empty; and the raw range has room for the 4 x 384 channels of the
    probes. *)
Theorem ranges_disjoint :
  forall g h,
    (g <> h ->
       snd (CONT_GROUP_RANGES g) < fst (CONT_GROUP_RANGES h)
       \/ snd (CONT_GROUP_RANGES h) < fst (CONT_GROUP_RANGES g))
    /\ fst (CONT_GROUP_RANGES g) = ContGroups_value g
    /\ fst (CONT_GROUP_RANGES g) <= snd (CONT_GROUP_RANGES g)
    /\ fst (CONT_GROUP_RANGES RAW) + (4 * 384 - 1) <= snd (CONT_GROUP_RANGES RAW).
Proof.
  intros g h. split; [|by destruct g].
  intros Hne. destruct g, h; simpl; try lia; done.
Qed.

End DhFromOeMore.

(** ** The stand-in for a continuous stream in the tests *)

Module TestDecimationFacts.

Import DhFromOe Blocks TestDecimation.

Lemma index_lookup (names : list string) i nm :
  NoDup names -> names !! i = Some nm -> index nm names = Some i.
Proof.
  intros Hd. revert i. induction Hd as [|y rest Hy Hd IH]; intros i Hi.
  - done.
  - destruct i as [|i]; simpl in *.
    + inversion Hi; subst. by rewrite String.eqb_refl.
    + destruct (String.eqb_spec y nm) as [->|Hne].
      * exfalso. apply Hy. by eapply list_elem_of_lookup_2.
      * by rewrite (IH _ Hi).
Qed.

Lemma index_none (names : list string) nm :
  nm ∉ names -> index nm names = None.
Proof.
  induction names as [|y rest IH]; intros Hn; [done|]. simpl.
  apply not_elem_of_cons in Hn as [Hne Hn].
  destruct (String.eqb_spec y nm) as [->|_]; [done|].
  by rewrite IH.
Qed.

(** X17: asked for a channel by name, the stand-in of the tests returns the
    one column of that channel (the channel names being distinct),
    whatever the sample range, the channel numbers and the further names
    asked for; this is the data of the block that the conversion writes
    for the channel. Asked for a name that the stream does not have, it
    fails; asked for no name, it returns all the samples. *)
Theorem get_samples_by_name :
  forall (self : Continuous) i nm col others start stop selected,
    NoDup (channel_names (metadata self)) ->
    channel_names (metadata self) !! i = Some nm ->
    samples self !! i = Some col ->
    get_samples self start stop selected (Some (nm :: others)) = Some [col]
    /\ data <$> stream_blocks self 0 !! i = Some [col]
    /\ (forall other, other ∉ channel_names (metadata self) ->
          get_samples self start stop selected (Some (other :: others))
          = None)
    /\ get_samples self start stop selected None = Some (samples self)
    /\ get_samples self start stop selected (Some []) = Some (samples self).
Proof.
  intros self i nm col others start stop selected Hd Hnm Hcol.
  unfold get_samples.
  destruct (channel_names (metadata self)) as [|n0 names] eqn:Hn; [done|].
  split; [|split; [|split]].
  - rewrite (index_lookup _ _ _ Hd Hnm).
    by rewrite (DhFromOeMore.column_slice_lookup _ _ _ Hcol).
  - unfold stream_blocks. rewrite Hn, list_lookup_imap, Hnm. simpl.
    by rewrite (DhFromOeMore.column_slice_lookup _ _ _ Hcol).
  - intros other Ho. by rewrite (index_none _ _ Ho).
  - done.
Qed.

Lemma get_samples_by_name_witness :
  get_samples
    {| metadata :=
         {| source_node_name := "test_node"; source_node_id := 100;
            stream_name := "test_stream";
            sample_rate := Np.float64_of_int 30000;
            channel_names := ["CH1"; "CH2"; "CH3"]%string;
            bit_volts := [] |};
       nSamples := 2;
       samples := [[1; 2]; [3; 4]; [5; 6]] |}
    0 (-1) None (Some ["CH3"%string])
  = Some [[5; 6]].
Proof.
  refine (proj1 (get_samples_by_name
                   {| metadata :=
                        {| source_node_name := "test_node";
                           source_node_id := 100;
                           stream_name := "test_stream";
                           sample_rate := Np.float64_of_int 30000;
                           channel_names := ["CH1"; "CH2"; "CH3"]%string;
                           bit_volts := [] |};
                      nSamples := 2;
                      samples := [[1; 2]; [3; 4]; [5; 6]] |}
                   2%nat "CH3"%string [5; 6] [] 0 (-1) None _
                   eq_refl eq_refl)).
  simpl.
  repeat (apply NoDup_cons_2;
          [intros Hin;
           repeat (apply elem_of_cons in Hin as [Hin|Hin]; [discriminate|]);
           by apply elem_of_nil in Hin|]).
  apply NoDup_nil_2.
Defined.

End TestDecimationFacts.
